(** * RobustFoodDetector: the distributed training script [train.py]

    A shallow embedding of [set_random_seeds], [evaluate] and [main].

    Conventions of the embedding.
    - Tensor entries and Python floats are idealised as real numbers.  A
      scalar that torch computes as [nan] or [inf] (the mean of an empty
      tensor, a tensor divided by zero) is [None] in [Scalar].
    - A logit vector has at least one class ([Logits] is a non-empty
      vector), as the classifier head [nn.Linear(2048, 101)] guarantees.
    - What torch and torchvision provide (model construction, the forward
      pass, the loss object, autograd with the gradient all-reduce and the
      SGD update) is the interface [Backend].
    - The process environment (ambient generator states, the checkpoint
      files, the Food101 shards the loaders yield) is [Env].  The process
      group, the CUDA device, the datasets and the model directory are
      taken to be available; [--local_rank] is always passed by the
      launcher, and [--learning_rate] is not negative, as [optim.SGD]
      requires.
    - Effects are threaded through a state-and-exception monad [M]; every
      externally visible call is recorded in [st_trace], oldest first.
      The event file of the [SummaryWriter] is not a file of the state:
      it is what the events of the writer in the trace describe.  The
      generator states are followed up to the construction of the model,
      not through the draws of the data loaders. *)

From Stdlib Require Import Reals Lra Lia ZArith List String Ascii Bool Arith.
From stdpp Require Import gmap strings.
Import ListNotations.

Open Scope string_scope.

(** ** Python string helpers used at lines 82-96 *)

Module Py.

(** [split_on sep s]: the piece of [s] before the first [sep], and the
    pieces after it. *)
Fixpoint split_on (sep : ascii) (s : string) : string * list string :=
  match s with
  | EmptyString => (EmptyString, [])
  | String c s' =>
      let '(piece, pieces) := split_on sep s' in
      if Ascii.eqb c sep then (EmptyString, piece :: pieces)
      else (String c piece, pieces)
  end.

(** [str.rsplit(sep)] with no [maxsplit]: every occurrence of [sep] splits,
    so the result is the list [str.split(sep)] gives. *)
Definition rsplit (s : string) (sep : ascii) : list string :=
  let '(piece, pieces) := split_on sep s in piece :: pieces.

(** [l[0]] on a list of strings; [rsplit] never returns the empty list. *)
Definition item0 (l : list string) : string :=
  match l with
  | x :: _ => x
  | [] => EmptyString
  end.

Definition startswith_sep (s : string) : bool :=
  match s with
  | String c _ => Ascii.eqb c "/"
  | EmptyString => false
  end.

Fixpoint endswith_sep (s : string) : bool :=
  match s with
  | EmptyString => false
  | String c EmptyString => Ascii.eqb c "/"
  | String _ s' => endswith_sep s'
  end.

(** [os.path.join(a, b)] of [posixpath]. *)
Definition os_path_join (a b : string) : string :=
  if startswith_sep b then b
  else if (String.eqb a "" || endswith_sep a)%bool then a +:+ b
  else a +:+ "/" +:+ b.

End Py.

(** ** Command line (lines 54-87) *)

Record Args := mkArgs {
  local_rank : Z;
  num_epochs : Z;
  batch_size : Z;
  learning_rate : R;
  random_seed : Z;
  model_dir : string;
  model_filename : string;
  resume : bool;
  score : string;
  eval : bool
}.

Fixpoint has_dot (s : string) : bool :=
  match s with
  | EmptyString => false
  | String c s' => (Ascii.eqb c "." || has_dot s')%bool
  end.

(** Lines 81-85: the checkpoint file name for a [--score] value. *)
Definition checkpoint_filename (score model_filename : string) : string :=
  if String.eqb score "OE" then
    Py.item0 (Py.rsplit model_filename ".") +:+ "_OE.pth"
  else if String.eqb score "energy" then
    Py.item0 (Py.rsplit model_filename ".") +:+ "_energy.pth"
  else model_filename.

(** Line 96. *)
Definition model_filepath (argv : Args) : string :=
  Py.os_path_join (model_dir argv)
    (checkpoint_filename (score argv) (model_filename argv)).

(** The file layout in the words of the specification: the file name with
    the mode's suffix put before its extension (the last dot and what
    follows it), under [<model_dir>/]. *)
Module Layout.

(** [splitext s = (stem, ext)]: [ext] starts at the last dot of [s], and is
    empty when [s] has no dot. *)
Fixpoint splitext (s : string) : string * string :=
  match s with
  | EmptyString => (EmptyString, EmptyString)
  | String c s' =>
      let '(stem, ext) := splitext s' in
      match ext with
      | EmptyString =>
          if Ascii.eqb c "." then (EmptyString, s) else (String c stem, ext)
      | _ => (String c stem, ext)
      end
  end.

Definition suffixed (filename suffix : string) : string :=
  let '(stem, ext) := splitext filename in stem +:+ suffix +:+ ext.

Definition mode_suffix (score : string) : string :=
  if String.eqb score "energy" then "_energy"
  else if String.eqb score "OE" then "_OE"
  else "".

Definition checkpoint_path (dir filename score : string) : string :=
  dir +:+ "/" +:+ suffixed filename (mode_suffix score).

End Layout.

(** ** Tensors and scalars *)

Open Scope R_scope.

(** A zero-dimensional float; [None] is a non-finite value ([nan], [inf]). *)
Definition Scalar := option R.

Definition sadd (a b : Scalar) : Scalar :=
  match a, b with
  | Some x, Some y => Some (x + y)
  | _, _ => None
  end.

Definition smul (c : R) (a : Scalar) : Scalar :=
  match a with
  | Some x => Some (c * x)
  | None => None
  end.

Definition sneg (a : Scalar) : Scalar :=
  match a with
  | Some x => Some (- x)
  | None => None
  end.

(** [x / n] for a tensor [x] and a Python int [n]: no exception, a
    non-finite value when [n] is zero. *)
Definition sdiv_nat (a : Scalar) (n : nat) : Scalar :=
  match a, n with
  | Some x, S _ => Some (x / INR n)
  | _, _ => None
  end.

Definition Rsum (l : list R) : R := fold_right Rplus 0 l.

(** [t.mean()] of a one-dimensional tensor: [nan] on the empty tensor. *)
Definition tmean (l : list R) : Scalar :=
  match l with
  | [] => None
  | _ :: _ => Some (Rsum l / INR (length l))
  end.

(** One row of a logit batch: the scores of the classes, at least one. *)
Record Logits := mkLogits { logit0 : R; logits_rest : list R }.

Definition classes (r : Logits) : list R := logit0 r :: logits_rest r.

(** [torch.logsumexp(_, dim=1)] on one row. *)
Definition logsumexp (r : Logits) : R := ln (Rsum (map exp (classes r))).

(** [_.mean(1)] on one row. *)
Definition row_mean (r : Logits) : R :=
  Rsum (classes r) / INR (length (classes r)).

(** [nn.functional.relu]. *)
Definition relu (x : R) : R := Rmax 0 x.

(** Element-wise difference of two vectors of the same length. *)
Fixpoint vsub (a b : list R) : list R :=
  match a, b with
  | x :: a', y :: b' => (x - y) :: vsub a' b'
  | _, _ => []
  end.

(** [torch.max(outputs.data, 1)[1]] on one row: the index of the first
    maximal score. *)
Fixpoint argmax_from (best : R) (besti i : nat) (l : list R) : nat :=
  match l with
  | [] => besti
  | x :: l' =>
      if Rlt_dec best x then argmax_from x i (S i) l'
      else argmax_from best besti (S i) l'
  end.

Definition argmax (r : Logits) : nat :=
  argmax_from (logit0 r) 0%nat 1%nat (logits_rest r).

(** An image is indexed by channel first; a plane is height by width. *)
Definition Plane := list (list R).
Definition Image := list Plane.

(** ** Regularisation of the batch loss (lines 181-187) *)

Inductive Exn :=
| FileNotFoundError
| RuntimeError
| ValueError
| ZeroDivisionError
| IndexError.

(** Lines 183-185, with [k] the value of [len(inputs[0])]. *)
Definition energy_term (k : nat) (outputs : list Logits) : Scalar :=
  let Ec_out := map (fun r => - logsumexp r) (skipn k outputs) in
  let Ec_in := map (fun r => - logsumexp r) (firstn k outputs) in
  smul 0.1
    (sadd (tmean (map (fun e => relu (e - (-25)) ^ 2) Ec_in))
          (tmean (map (fun e => relu ((-7) - e) ^ 2) Ec_out))).

(** Line 187, with [k] the value of [len(inputs[0])]. *)
Definition oe_term (k : nat) (outputs : list Logits) : Scalar :=
  let aux := skipn k outputs in
  smul 0.5 (sneg (tmean (vsub (map row_mean aux) (map logsumexp aux)))).

(** [len(inputs[0])]: the leading dimension of the first image of the
    batch; [inputs[0]] raises on an empty batch. *)
Definition split_point (inputs : list Image) : Exn + nat :=
  match inputs with
  | [] => inl IndexError
  | x0 :: _ => inr (length x0)
  end.

(** Lines 182-187: the loss after the [--score] branch. *)
Definition regularized_loss (score : string) (inputs : list Image)
    (outputs : list Logits) (loss : Scalar) : Exn + Scalar :=
  if String.eqb score "energy" then
    match split_point inputs with
    | inl e => inl e
    | inr k => inr (sadd loss (energy_term k outputs))
    end
  else if String.eqb score "OE" then
    match split_point inputs with
    | inl e => inl e
    | inr k => inr (sadd loss (oe_term k outputs))
    end
  else inr loss.

(** The regularisation terms in the words of the specification. *)
Module Formula.

(** [E = -logsumexp(logits, dim=classes)]. *)
Definition energy (r : Logits) : R := - logsumexp r.

Definition ssquare (a : Scalar) : Scalar :=
  match a with
  | Some x => Some (x ^ 2)
  | None => None
  end.

(** [0.1 * (mean(relu(E_in + 25))^2 + mean(relu(-7 - E_out))^2)]. *)
Definition energy_as_written (k : nat) (outputs : list Logits) : Scalar :=
  let E_in := map energy (firstn k outputs) in
  let E_out := map energy (skipn k outputs) in
  smul 0.1
    (sadd (ssquare (tmean (map (fun e => relu (e + 25)) E_in)))
          (ssquare (tmean (map (fun e => relu (-7 - e)) E_out)))).

(** The same with each hinge squared before the mean is taken. *)
Definition energy_mean_of_squares (k : nat) (outputs : list Logits)
    : Scalar :=
  let E_in := map energy (firstn k outputs) in
  let E_out := map energy (skipn k outputs) in
  smul 0.1
    (sadd (tmean (map (fun e => relu (e + 25) ^ 2) E_in))
          (tmean (map (fun e => relu (-7 - e) ^ 2) E_out))).

(** The sum of the entries of a vector, accumulated from the left. *)
Definition total (l : list R) : R := fold_left Rplus l 0.

(** The logits of one example averaged over the class dimension. *)
Definition mean_logit (r : Logits) : R :=
  total (logit0 r :: logits_rest r) / INR (S (length (logits_rest r))).

(** The logarithm of the sum of the exponentials of the logits of one
    example. *)
Definition log_sum_exp (r : Logits) : R :=
  ln (total (map exp (logit0 r :: logits_rest r))).

(** [0.5 * -mean(mean_logit(aux) - logsumexp(aux))] over the auxiliary
    suffix [aux], the examples from index [k] on; the mean of no example
    is not a number. *)
Definition outlier_exposure (k : nat) (outputs : list Logits) : Scalar :=
  let aux := skipn k outputs in
  match aux with
  | [] => None
  | _ :: _ =>
      Some (0.5 * - (total (map (fun r => mean_logit r - log_sum_exp r) aux)
                     / INR (length aux)))
  end.

End Formula.

(** ** Data loading *)

Open Scope list_scope.

Definition Sample := (Image * nat)%type.
Definition Batch := (list Image * list nat)%type.

(** A [DataLoader]: the samples its sampler selects, in the sampler's
    order, and the batch size.  [len(loader.sampler)] is the number of
    those samples, for the sequential sampler of the test loader as for the
    [DistributedSampler] of the train loader. *)
Record DataLoader := mkLoader {
  dl_samples : list Sample;
  dl_batch_size : nat
}.

Definition sampler_len (dl : DataLoader) : nat := length (dl_samples dl).

(** [BatchSampler.__iter__] with [drop_last=False]: a batch is yielded as
    soon as it holds [batch_size] items, and what is left at the end is
    yielded when it is not empty. *)
Fixpoint batch_sampler {A : Type} (batch_size : nat) (batch : list A)
    (sampler : list A) : list (list A) :=
  match sampler with
  | [] =>
      match batch with
      | [] => []
      | _ :: _ => [batch]
      end
  | idx :: rest =>
      let batch' := batch ++ [idx] in
      if (length batch' =? batch_size)%nat
      then batch' :: batch_sampler batch_size [] rest
      else batch_sampler batch_size batch' rest
  end.

(** The default collate function: a batch of images and a batch of labels. *)
Definition collate (b : list Sample) : Batch := (map fst b, map snd b).

(** The batches one iteration over the loader yields. *)
Definition batches (dl : DataLoader) : list Batch :=
  map collate (batch_sampler (dl_batch_size dl) [] (dl_samples dl)).

(** ** What torch provides *)

Record Backend := mkBackend {
  (** a [state_dict] of the wrapped model, and the state of the optimizer *)
  Params : Type;
  OptState : Type;
  (** [resnet50(pretrained=False)] with the new [fc] head: the initial
      parameters drawn from the torch generator, and the generator after *)
  resnet50 : Z -> Params * Z;
  (** [model(images)], in training mode or not: one row per image *)
  forward : bool -> Params -> list Image -> list Logits;
  forward_rows : forall training p xs,
    length (forward training p xs) = length xs;
  (** [nn.CrossEntropyLoss()] *)
  criterion : list Logits -> list nat -> Scalar;
  (** [optim.SGD(..., lr, momentum=0.9, weight_decay=1e-5)] *)
  sgd_init : R -> OptState;
  (** [loss.backward(); optimizer.step()] at the n-th step of the run, for
      the batch and the [--score] branch the loss was built from; the
      gradients of the peers enter through the all-reduce *)
  sgd_step : nat -> Params -> OptState -> Batch -> string ->
             Params * OptState;
  (** whether [load_state_dict] accepts a state for a model *)
  loadable : Params -> Params -> bool
}.

Inductive Device := Cuda (index : Z).

Definition Device_eqb (a b : Device) : bool :=
  match a, b with
  | Cuda i, Cuda j => Z.eqb i j
  end.

(** [map_location] as a dict: a stored location that is a key is replaced
    by its value, any other is kept. *)
Fixpoint map_location_get (m : list (Device * Device)) (d : Device)
    : Device :=
  match m with
  | [] => d
  | (k, v) :: m' => if Device_eqb k d then v else map_location_get m' d
  end.

(** ** Reproducibility (lines 18-24) *)

Record Rng := mkRng {
  torch_gen : Z;
  cudnn_deterministic : bool;
  cudnn_benchmark : bool;
  numpy_gen : Z;
  python_gen : Z
}.

(** A generator state is identified with the seed it was last seeded
    with; the ambient states of a fresh process are arbitrary. *)
Definition set_random_seeds (random_seed : Z) (r : Rng) : Rng :=
  let r := {| torch_gen := random_seed;
              cudnn_deterministic := cudnn_deterministic r;
              cudnn_benchmark := cudnn_benchmark r;
              numpy_gen := numpy_gen r;
              python_gen := python_gen r |} in
  let r := {| torch_gen := torch_gen r;
              cudnn_deterministic := true;
              cudnn_benchmark := cudnn_benchmark r;
              numpy_gen := numpy_gen r;
              python_gen := python_gen r |} in
  let r := {| torch_gen := torch_gen r;
              cudnn_deterministic := cudnn_deterministic r;
              cudnn_benchmark := false;
              numpy_gen := numpy_gen r;
              python_gen := python_gen r |} in
  let r := {| torch_gen := torch_gen r;
              cudnn_deterministic := cudnn_deterministic r;
              cudnn_benchmark := cudnn_benchmark r;
              numpy_gen := random_seed;
              python_gen := python_gen r |} in
  {| torch_gen := torch_gen r;
     cudnn_deterministic := cudnn_deterministic r;
     cudnn_benchmark := cudnn_benchmark r;
     numpy_gen := numpy_gen r;
     python_gen := random_seed |}.

(** ** Observable effects *)

Inductive Msg :=
| MsgTraining (rank : Z) (epoch : nat)
| MsgRule
| MsgEpochAccuracy (epoch : nat) (accuracy : R)
| MsgTestAccuracy (accuracy : R).

Inductive Event :=
| EvLoad (path : string) (onto : Device)
| EvWriterOpen
| EvPrint (m : Msg)
| EvEvalMode
| EvTrainMode
| EvSave (path : string)
| EvZeroGrad
| EvBackward
| EvStep
| EvScalar (tag : string) (value : Scalar) (step : nat)
| EvWriterClose.

Inductive SummaryWriter := Writer.

Inductive Halt :=
| Exit (code : Z)
| Raise (e : Exn).

Inductive Res (A : Type) :=
| Done (a : A)
| Stop (h : Halt).

Arguments Done {A} a.
Arguments Stop {A} h.

(** ** The program *)

Section Program.

Context (B : Backend).

(** What [torch.save] writes: the parameters and the device they were on. *)
Record Checkpoint := mkCheckpoint {
  ck_device : Device;
  ck_state : Params B
}.

Record Env := mkEnv {
  env_rng : Rng;
  (** the checkpoint files the process finds, by path *)
  env_files : gmap string Checkpoint;
  (** the samples of this worker's shard of the train split, as the train
      loader yields them in a given epoch *)
  env_train : nat -> list Sample;
  (** the samples of the test split *)
  env_test : list Sample
}.

Record State := mkState {
  (** the generators as the seeding and the construction of the model
      leave them; what the loaders draw from them later is not tracked *)
  st_rng : Rng;
  st_params : Params B;
  st_opt : OptState B;
  (** [nn.Module.training] *)
  st_training : bool;
  (** optimizer steps taken so far *)
  st_steps : nat;
  (** the checkpoint files, by path: what [torch.load] reads and
      [torch.save] writes.  The event file of the [SummaryWriter] is not
      one of them: its creation and what is written to it are the events
      [EvWriterOpen], [EvScalar] and [EvWriterClose] of the trace *)
  st_files : gmap string Checkpoint;
  st_trace : list Event
}.

Definition M (A : Type) : Type := State -> Res A * State.

Definition ret {A : Type} (a : A) : M A := fun s => (Done a, s).

Definition bind {A C : Type} (m : M A) (k : A -> M C) : M C :=
  fun s =>
    match m s with
    | (Done a, s') => k a s'
    | (Stop h, s') => (Stop h, s')
    end.

Notation "x <- m ;; k" := (bind m (fun x => k))
  (at level 100, m at next level, right associativity).
Notation "m ;; k" := (bind m (fun _ => k))
  (at level 100, right associativity).

Definition raise {A : Type} (e : Exn) : M A := fun s => (Stop (Raise e), s).

(** The builtin [exit()]: [SystemExit] with status 0. *)
Definition exit {A : Type} : M A := fun s => (Stop (Exit 0), s).

Definition lift {A : Type} (r : Exn + A) : M A :=
  match r with
  | inl e => raise e
  | inr a => ret a
  end.

Definition get : M State := fun s => (Done s, s).

Definition log (e : Event) : M unit :=
  fun s =>
    (Done tt,
     {| st_rng := st_rng s; st_params := st_params s; st_opt := st_opt s;
        st_training := st_training s; st_steps := st_steps s;
        st_files := st_files s; st_trace := st_trace s ++ [e] |}).

Definition set_training (b : bool) : M unit :=
  fun s =>
    (Done tt,
     {| st_rng := st_rng s; st_params := st_params s; st_opt := st_opt s;
        st_training := b; st_steps := st_steps s;
        st_files := st_files s; st_trace := st_trace s |}).

Definition set_params (p : Params B) : M unit :=
  fun s =>
    (Done tt,
     {| st_rng := st_rng s; st_params := p; st_opt := st_opt s;
        st_training := st_training s; st_steps := st_steps s;
        st_files := st_files s; st_trace := st_trace s |}).

Definition print (m : Msg) : M unit := log (EvPrint m).

Definition add_scalar (tag : string) (v : Scalar) (step : nat) : M unit :=
  log (EvScalar tag v step).

(** [model.eval()] and [model.train()]. *)
Definition model_eval : M unit := log EvEvalMode ;; set_training false.
Definition model_train : M unit := log EvTrainMode ;; set_training true.

(** [model(images)] in the mode the model is in. *)
Definition model_call (images : list Image) : M (list Logits) :=
  s <- get ;;
  ret (forward B (st_training s) (st_params s) images).

(** [torch.load(path, map_location=...)]. *)
Definition torch_load (path : string) (map_location : list (Device * Device))
    : M Checkpoint :=
  s <- get ;;
  match st_files s !! path with
  | None => raise FileNotFoundError
  | Some ck =>
      let onto := map_location_get map_location (ck_device ck) in
      log (EvLoad path onto) ;;
      ret {| ck_device := onto; ck_state := ck_state ck |}
  end.

(** [ddp_model.load_state_dict(state)]. *)
Definition load_state_dict (ck : Checkpoint) : M unit :=
  s <- get ;;
  if loadable B (st_params s) (ck_state ck) then set_params (ck_state ck)
  else raise RuntimeError.

(** [torch.save(ddp_model.state_dict(), path)], the model being on
    [device]. *)
Definition torch_save (path : string) (device : Device) : M unit :=
  fun s =>
    (Done tt,
     {| st_rng := st_rng s; st_params := st_params s; st_opt := st_opt s;
        st_training := st_training s; st_steps := st_steps s;
        st_files :=
          <[path := {| ck_device := device; ck_state := st_params s |}]>
            (st_files s);
        st_trace := st_trace s ++ [EvSave path] |}).

(** [loss.backward(); optimizer.step()]. *)
Definition backward_and_step (data : Batch) (score : string) : M unit :=
  log EvBackward ;;
  log EvStep ;;
  fun s =>
    let '(p, o) := sgd_step B (st_steps s) (st_params s) (st_opt s)
                     data score in
    (Done tt,
     {| st_rng := st_rng s; st_params := p; st_opt := o;
        st_training := st_training s; st_steps := S (st_steps s);
        st_files := st_files s; st_trace := st_trace s |}).

(** [acc /= n] after a loop over [seen] that started from the int [0] and
    added a tensor per item: a Python division when nothing was added. *)
Definition div_by_len {X : Type} (seen : list X) (acc : Scalar) (n : nat)
    : M Scalar :=
  match seen, n with
  | [], O => raise ZeroDivisionError
  | _, _ => ret (sdiv_nat acc n)
  end.

(** [correct / total] on Python ints. *)
Definition int_div (correct total : nat) : M R :=
  match total with
  | O => raise ZeroDivisionError
  | S _ => ret (INR correct / INR total)
  end.

(** [(predicted == labels).sum().item()]. *)
Fixpoint count_eq (predicted labels : list nat) : nat :=
  match predicted, labels with
  | x :: predicted', y :: labels' =>
      ((if (x =? y)%nat then 1 else 0) + count_eq predicted' labels')%nat
  | _, _ => O
  end.

(** Lines 35-41: one turn of the loop of [evaluate]. *)
Definition eval_batch (model : list Image -> list Logits)
    (criterion : list Logits -> list nat -> Scalar)
    (acc : nat * nat * Scalar) (data : Batch) : nat * nat * Scalar :=
  let '(correct, total, avg_loss_test) := acc in
  let '(images, labels) := data in
  let outputs := model images in
  let predicted := map argmax outputs in
  let loss := criterion outputs labels in
  let total := (total + length labels)%nat in
  let correct := (correct + count_eq predicted labels)%nat in
  let avg_loss_test := sadd avg_loss_test loss in
  (correct, total, avg_loss_test).

(** Lines 26-50.  The model is the one of the state; the device plays no
    part in the values. *)
Definition evaluate (test_loader : DataLoader) (epoch : nat)
    (criterion : list Logits -> list nat -> Scalar)
    (writer : option SummaryWriter) : M R :=
  model_eval ;;
  s <- get ;;
  let '(correct, total, avg_loss_test) :=
    fold_left (eval_batch (forward B (st_training s) (st_params s)) criterion)
      (batches test_loader) (O, O, Some 0) in
  avg_loss_test <-
    div_by_len (batches test_loader) avg_loss_test (sampler_len test_loader) ;;
  accuracy <- int_div correct total ;;
  match writer with
  | Some _ =>
      add_scalar "Loss/test" avg_loss_test epoch ;;
      add_scalar "Accuracy/test" (Some accuracy) epoch
  | None => ret tt
  end ;;
  ret accuracy.

(** [for x in l: acc = body(acc, x)]. *)
Fixpoint for_each {X S : Type} (l : list X) (body : S -> X -> M S) (acc : S)
    : M S :=
  match l with
  | [] => ret acc
  | x :: l' => acc' <- body acc x ;; for_each l' body acc'
  end.

(** Lines 174-191: one turn of the batch loop. *)
Definition train_batch (argv : Args) (avg_loss_train : Scalar) (data : Batch)
    : M Scalar :=
  let '(inputs, labels) := data in
  log EvZeroGrad ;;
  outputs <- model_call inputs ;;
  let loss := criterion B outputs labels in
  loss <- lift (regularized_loss (score argv) inputs outputs loss) ;;
  let avg_loss_train := sadd avg_loss_train loss in
  backward_and_step data (score argv) ;;
  ret avg_loss_train.

Definition test_loader (env : Env) : DataLoader :=
  {| dl_samples := env_test env; dl_batch_size := 128 |}.

Definition train_loader (argv : Args) (env : Env) (epoch : nat)
    : DataLoader :=
  {| dl_samples := env_train env epoch;
     dl_batch_size := Z.to_nat (batch_size argv) |}.

(** Lines 163-170. *)
Definition periodic_eval (argv : Args) (env : Env) (epoch : nat) : M unit :=
  if (epoch mod 10 =? 0)%nat then
    if (local_rank argv =? 0)%Z then
      accuracy <-
        evaluate (test_loader env) epoch (criterion B) (Some Writer) ;;
      torch_save (model_filepath argv) (Cuda (local_rank argv)) ;;
      print MsgRule ;;
      print (MsgEpochAccuracy epoch accuracy) ;;
      print MsgRule
    else ret tt
  else ret tt.

(** Lines 158-193: the body of the epoch loop. *)
Definition run_epoch (argv : Args) (env : Env) (epoch : nat) : M unit :=
  print (MsgTraining (local_rank argv) epoch) ;;
  periodic_eval argv env epoch ;;
  model_train ;;
  avg_loss_train <-
    for_each (batches (train_loader argv env epoch)) (train_batch argv)
      (Some 0) ;;
  avg_loss_train <-
    div_by_len (batches (train_loader argv env epoch)) avg_loss_train
      (sampler_len (train_loader argv env epoch)) ;;
  add_scalar "Loss/train" avg_loss_train epoch.

(** [for epoch in range(n)], from [first] on. *)
Fixpoint epoch_loop (argv : Args) (env : Env) (first n : nat) : M unit :=
  match n with
  | O => ret tt
  | S n' => run_epoch argv env first ;; epoch_loop argv env (S first) n'
  end.

(** Lines 113-117. *)
Definition resume_checkpoint (argv : Args) : M unit :=
  if resume argv then
    let map_location := [(Cuda 0, Cuda (local_rank argv))] in
    ck <- torch_load (model_filepath argv) map_location ;;
    load_state_dict ck
  else ret tt.

(** Line 143: [DataLoader] refuses a batch size that is not positive. *)
Definition check_batch_size (argv : Args) : M unit :=
  if (batch_size argv <=? 0)%Z then raise ValueError else ret tt.

(** Lines 152-155. *)
Definition eval_only (env : Env) : M unit :=
  accuracy <- evaluate (test_loader env) O (criterion B) None ;;
  print (MsgTestAccuracy accuracy) ;;
  exit.

(** Lines 119-194: what follows the resume block. *)
Definition train_or_eval (argv : Args) (env : Env) : M unit :=
  check_batch_size argv ;;
  log EvWriterOpen ;;
  if eval argv then eval_only env
  else
    epoch_loop argv env O (Z.to_nat (num_epochs argv)) ;;
    log EvWriterClose.

(** Lines 113-194, from the model just wrapped. *)
Definition main_body (argv : Args) (env : Env) : M unit :=
  resume_checkpoint argv ;;
  train_or_eval argv env.

(** Lines 98-111 and 148: the seeds, the model built from the seeded torch
    generator, and the optimizer. *)
Definition initial_state (argv : Args) (env : Env) : State :=
  let rng := set_random_seeds (random_seed argv) (env_rng env) in
  let '(params, gen) := resnet50 B (torch_gen rng) in
  {| st_rng := {| torch_gen := gen;
                  cudnn_deterministic := cudnn_deterministic rng;
                  cudnn_benchmark := cudnn_benchmark rng;
                  numpy_gen := numpy_gen rng;
                  python_gen := python_gen rng |};
     st_params := params;
     st_opt := sgd_init B (learning_rate argv);
     st_training := true;
     st_steps := O;
     st_files := env_files env;
     st_trace := [] |}.

(** Lines 52-194. *)
Definition main (argv : Args) (env : Env) : Res unit * State :=
  main_body argv env (initial_state argv env).

End Program.

Arguments ret {B A} a.
Arguments bind {B A C} m k.
Arguments raise {B A} e.
Arguments exit {B A}.
Arguments lift {B A} r.
Arguments get {B}.
Arguments log {B} e.
Arguments print {B} m.
Arguments add_scalar {B} tag v step.
Arguments div_by_len {B X} seen acc n.
Arguments int_div {B} correct total.
Arguments for_each {B X S} l body acc.
Arguments ck_device {B} _.
Arguments ck_state {B} _.
Arguments mkCheckpoint {B} _ _.
Arguments env_rng {B} _.
Arguments env_files {B} _.
Arguments env_train {B} _ _.
Arguments env_test {B} _.
Arguments st_rng {B} _.
Arguments st_params {B} _.
Arguments st_opt {B} _.
Arguments st_training {B} _.
Arguments st_steps {B} _.
Arguments st_files {B} _.
Arguments st_trace {B} _.

(** ** Quantities the statements below speak of *)

Module Aggregate.

(** The sum a loop [acc += x] computes from [0]. *)
Definition ssum (l : list Scalar) : Scalar := fold_left sadd l (Some 0).

(** The loss of each batch, in order. *)
Definition batch_losses (model : list Image -> list Logits)
    (criterion : list Logits -> list nat -> Scalar) (bs : list Batch)
    : list Scalar :=
  map (fun b : Batch => criterion (model (fst b)) (snd b)) bs.

(** Every example seen, as its logit row and its label. *)
Definition examples (model : list Image -> list Logits) (bs : list Batch)
    : list (Logits * nat) :=
  flat_map (fun b : Batch => combine (model (fst b)) (snd b)) bs.

(** The number of examples whose arg-max logit is the label. *)
Definition n_correct (model : list Image -> list Logits) (bs : list Batch)
    : nat :=
  length (List.filter (fun e : Logits * nat => (argmax (fst e) =? snd e)%nat)
            (examples model bs)).

Definition accuracy (model : list Image -> list Logits) (bs : list Batch)
    : R :=
  INR (n_correct model bs) / INR (length (examples model bs)).

(** The average loss as the specification has it: over the batches. *)
Definition avg_loss_per_batch (model : list Image -> list Logits)
    (criterion : list Logits -> list nat -> Scalar) (bs : list Batch)
    : Scalar :=
  sdiv_nat (ssum (batch_losses model criterion bs)) (length bs).

(** The average loss over the length of the sampler. *)
Definition avg_loss_per_sample (model : list Image -> list Logits)
    (criterion : list Logits -> list nat -> Scalar) (dl : DataLoader)
    : Scalar :=
  sdiv_nat (ssum (batch_losses model criterion (batches dl)))
    (sampler_len dl).

End Aggregate.

(** The loss of each batch of a training pass that starts at step [n] with
    parameters [p] and optimizer state [o]: each batch is seen by the
    parameters the steps before it have produced. *)
Fixpoint training_losses (B : Backend) (score : string) (n : nat)
    (p : Params B) (o : OptState B) (bs : list Batch) : list Scalar :=
  match bs with
  | [] => []
  | b :: bs' =>
      let outputs := forward B true p (fst b) in
      let loss :=
        match regularized_loss score (fst b) outputs
                (criterion B outputs (snd b)) with
        | inr l => l
        | inl _ => None
        end in
      let '(p', o') := sgd_step B n p o b score in
      loss :: training_losses B score (S n) p' o' bs'
  end.

(** The events of one turn of the batch loop. *)
Definition batch_events : list Event := [EvZeroGrad; EvBackward; EvStep].

Definition is_save (e : Event) : bool :=
  match e with
  | EvSave _ => true
  | _ => false
  end.

Definition is_eval_mode (e : Event) : bool :=
  match e with
  | EvEvalMode => true
  | _ => false
  end.

Definition is_test_scalar (e : Event) : bool :=
  match e with
  | EvScalar tag _ _ =>
      (String.eqb tag "Loss/test" || String.eqb tag "Accuracy/test")%bool
  | _ => false
  end.

Definition is_training_print (e : Event) : bool :=
  match e with
  | EvPrint (MsgTraining _ _) => true
  | _ => false
  end.

(** Whether this worker evaluates and saves in an epoch (lines 164-165). *)
Definition saves_in (argv : Args) (epoch : nat) : bool :=
  ((epoch mod 10 =? 0)%nat && (local_rank argv =? 0)%Z)%bool.

(** The events of lines 166-170 in an epoch that starts in state [s]. *)
Definition periodic_events (B : Backend) (argv : Args) (env : Env B)
    (epoch : nat) (s : State B) : list Event :=
  let model := forward B false (st_params s) in
  let accuracy := Aggregate.accuracy model (batches (test_loader B env)) in
  [EvEvalMode;
   EvScalar "Loss/test"
     (Aggregate.avg_loss_per_sample model (criterion B) (test_loader B env))
     epoch;
   EvScalar "Accuracy/test" (Some accuracy) epoch;
   EvSave (model_filepath argv);
   EvPrint MsgRule;
   EvPrint (MsgEpochAccuracy epoch accuracy);
   EvPrint MsgRule].

(** The train loss an epoch that starts in state [s] reports. *)
Definition epoch_train_loss (B : Backend) (argv : Args) (env : Env B)
    (epoch : nat) (s : State B) : Scalar :=
  sdiv_nat
    (Aggregate.ssum
       (training_losses B (score argv) (st_steps s) (st_params s) (st_opt s)
          (batches (train_loader B argv env epoch))))
    (sampler_len (train_loader B argv env epoch)).

(** The events of an epoch that starts in state [s]. *)
Definition epoch_events (B : Backend) (argv : Args) (env : Env B)
    (epoch : nat) (s : State B) : list Event :=
  [EvPrint (MsgTraining (local_rank argv) epoch)]
  ++ (if saves_in argv epoch then periodic_events B argv env epoch s else [])
  ++ [EvTrainMode]
  ++ concat (map (fun _ : Batch => batch_events)
               (batches (train_loader B argv env epoch)))
  ++ [EvScalar "Loss/train" (epoch_train_loss B argv env epoch s) epoch].

(** ** A small instance, for examples *)

Module Toy.

(** An image of three channels. *)
Definition image : Image := [[]; []; []].

(** A model that scores class 0 above class 1 on every image, a loss that
    is 1 on every batch, an update that counts the steps, and a model that
    accepts the states below 10. *)
Definition backend : Backend :=
  {| Params := nat;
     OptState := unit;
     resnet50 := fun g => (Z.to_nat g, (g + 1)%Z);
     forward := fun _ _ xs => map (fun _ => mkLogits 1 [0]) xs;
     forward_rows := fun _ _ xs => length_map (fun _ => mkLogits 1 [0]) xs;
     criterion := fun _ _ => Some 1;
     sgd_init := fun _ => tt;
     sgd_step := fun _ p o _ _ => (S p, o);
     loadable := fun _ q => (q <? 10)%nat |}.

Definition samples3 : list Sample :=
  [(image, 0%nat); (image, 1%nat); (image, 0%nat)].

Definition samples4 : list Sample :=
  [(image, 0%nat); (image, 1%nat); (image, 0%nat); (image, 0%nat)].

(** Three test samples in batches of two. *)
Definition loader : DataLoader :=
  {| dl_samples := samples3; dl_batch_size := 2 |}.

Definition env : Env backend :=
  {| env_rng := mkRng 7 false true 8 9;
     env_files := ∅;
     env_train := fun _ => samples4;
     env_test := samples3 |}.

(** Another process, with a checkpoint that rank 0 has saved. *)
Definition env_saved : Env backend :=
  {| env_rng := mkRng 3 true false 4 5;
     env_files :=
       {[ "saved_models/resnet_distributed.pth" :=
            @mkCheckpoint backend (Cuda 0) 5%nat ]};
     env_train := fun _ => samples4;
     env_test := samples3 |}.

(** The same with a checkpoint of another model. *)
Definition env_foreign : Env backend :=
  {| env_rng := mkRng 3 true false 4 5;
     env_files :=
       {[ "saved_models/resnet_distributed.pth" :=
            @mkCheckpoint backend (Cuda 0) 12%nat ]};
     env_train := fun _ => samples4;
     env_test := samples3 |}.

Definition argv : Args :=
  {| local_rank := 0; num_epochs := 2; batch_size := 2;
     learning_rate := 0.1; random_seed := 0;
     model_dir := "saved_models";
     model_filename := "resnet_distributed.pth";
     resume := false; score := "None"; eval := false |}.

Definition argv_eval : Args :=
  {| local_rank := 1; num_epochs := 2; batch_size := 2;
     learning_rate := 0.1; random_seed := 0;
     model_dir := "saved_models";
     model_filename := "resnet_distributed.pth";
     resume := false; score := "None"; eval := true |}.

Definition argv_resume : Args :=
  {| local_rank := 1; num_epochs := 2; batch_size := 2;
     learning_rate := 0.1; random_seed := 0;
     model_dir := "saved_models";
     model_filename := "resnet_distributed.pth";
     resume := true; score := "None"; eval := false |}.

Definition argv_score (mode : string) : Args :=
  {| local_rank := 0; num_epochs := 2; batch_size := 2;
     learning_rate := 0.1; random_seed := 0;
     model_dir := "saved_models";
     model_filename := "resnet_distributed.pth";
     resume := false; score := mode; eval := false |}.

Definition state0 : State backend := initial_state backend argv env.

(** Logits of one class: the energy of a row is the opposite of its
    score. *)
Definition row (x : R) : Logits := mkLogits x [].

(** A batch of four whose first three energies are -23, -25 and -25. *)
Definition outputs4 : list Logits := [row 23; row 25; row 25; row 7].

(** A batch of two: no row is left after the first three. *)
Definition outputs2 : list Logits := [row 25; row 25].

(** A batch of five over two classes: with three rows of in-distribution
    data, the last two are the auxiliary suffix. *)
Definition outputs5 : list Logits :=
  [mkLogits 1 [0]; mkLogits 1 [0]; mkLogits 1 [0];
   mkLogits 2 [2]; mkLogits 4 [4]].

(** A loader over no sample, and a worker whose shard is empty. *)
Definition loader_empty : DataLoader :=
  {| dl_samples := []; dl_batch_size := 2 |}.

Definition env_empty_shard : Env backend :=
  {| env_rng := mkRng 7 false true 8 9;
     env_files := ∅;
     env_train := fun _ => [];
     env_test := samples3 |}.

(** Flags with an absolute file name, and flags with a batch size of 0. *)
Definition argv_absolute : Args :=
  {| local_rank := 0; num_epochs := 2; batch_size := 2;
     learning_rate := 0.1; random_seed := 0;
     model_dir := "saved_models"; model_filename := "/tmp/resnet.pth";
     resume := false; score := "OE"; eval := false |}.

Definition argv_batch0 : Args :=
  {| local_rank := 0; num_epochs := 2; batch_size := 0;
     learning_rate := 0.1; random_seed := 0;
     model_dir := "saved_models";
     model_filename := "resnet_distributed.pth";
     resume := false; score := "None"; eval := false |}.

End Toy.

Definition is_setup (e : Event) : bool :=
  match e with
  | EvLoad _ _ | EvWriterOpen => true
  | _ => false
  end.

Definition is_train_scalar (e : Event) : bool :=
  match e with
  | EvScalar tag _ _ => String.eqb tag "Loss/train"
  | _ => false
  end.

(** What [evaluate] writes to the writer it is given. *)
Definition eval_scalars (writer : option SummaryWriter) (avg : Scalar)
    (acc : R) (epoch : nat) : list Event :=
  match writer with
  | Some _ =>
      [EvScalar "Loss/test" avg epoch;
       EvScalar "Accuracy/test" (Some acc) epoch]
  | None => []
  end.

(** With [--resume], the checkpoint file is there and fits the model. *)
Definition resume_ok (B : Backend) (argv : Args) (env : Env B) : Prop :=
  resume argv = true ->
  exists ck : Checkpoint B,
    env_files env !! model_filepath argv = Some ck /\
    loadable B (st_params (initial_state B argv env)) (ck_state ck) = true.

Definition is_batch_event (e : Event) : bool :=
  match e with
  | EvZeroGrad | EvBackward | EvStep => true
  | _ => false
  end.

(** ** Quantities of a whole run *)

(** The number of batches the train loader yields over [n] epochs from
    epoch [first] on. *)
Fixpoint batches_in_epochs (B : Backend) (argv : Args) (env : Env B)
    (first n : nat) : nat :=
  match n with
  | O => O
  | S n' =>
      (length (batches (train_loader B argv env first))
       + batches_in_epochs B argv env (S first) n')%nat
  end.

Definition is_opt_step (e : Event) : bool :=
  match e with
  | EvStep => true
  | _ => false
  end.

(** The number of calls of [optimizer.step()] a trace records. *)
Definition count_steps (l : list Event) : nat :=
  length (List.filter is_opt_step l).

(** The file at [path] is a checkpoint stored from [cuda:0]. *)
Definition stored_from_cuda0 {B : Backend} (files : gmap string (Checkpoint B))
    (path : string) : Prop :=
  exists ck, files !! path = Some ck /\ ck_device ck = Cuda 0.

(** The environment with another test split. *)
Definition with_test {B : Backend} (env : Env B) (test : list Sample)
    : Env B :=
  {| env_rng := env_rng env; env_files := env_files env;
     env_train := env_train env; env_test := test |}.

Definition is_writer_event (e : Event) : bool :=
  match e with
  | EvScalar _ _ _ | EvWriterClose => true
  | _ => false
  end.

(** * Lemmas *)

(** ** File names and paths *)

Open Scope string_scope.

Lemma append_cons (c : ascii) (a b : string) :
  String c a +:+ b = String c (a +:+ b).
Proof. reflexivity. Qed.

Lemma append_nil (b : string) : "" +:+ b = b.
Proof. reflexivity. Qed.

Lemma split_on_fst_stem (stem rest : string) :
  has_dot stem = false ->
  fst (Py.split_on "." (stem +:+ String "." rest)) = stem.
Proof.
  induction stem as [|c stem IH]; simpl; intros H.
  - destruct (Py.split_on "." rest); reflexivity.
  - apply orb_false_iff in H as [Hc Hs].
    specialize (IH Hs).
    destruct (Py.split_on "." (stem +:+ String "." rest)) as [piece pieces].
    rewrite Hc. simpl in *. now rewrite IH.
Qed.

Lemma split_on_no_dot (s : string) :
  has_dot s = false -> Py.split_on "." s = (s, []).
Proof.
  induction s as [|c s IH]; simpl; intros H; [reflexivity|].
  apply orb_false_iff in H as [Hc Hs].
  rewrite (IH Hs), Hc. reflexivity.
Qed.

Lemma item0_rsplit (s : string) :
  Py.item0 (Py.rsplit s ".") = fst (Py.split_on "." s).
Proof. unfold Py.rsplit. destruct (Py.split_on "." s); reflexivity. Qed.

(** a name is what comes before its first dot, then nothing or a dot *)
Lemma split_on_decompose (s : string) :
  exists rest, s = fst (Py.split_on "." s) +:+ rest /\
               (rest = "" \/ exists r, rest = String "." r).
Proof.
  induction s as [|c s IH]; simpl.
  - exists "". auto.
  - destruct IH as (rest & Heq & Hrest).
    destruct (Py.split_on "." s) as [piece pieces]; simpl in *.
    destruct (Ascii.eqb_spec c ".") as [->|Hc]; simpl.
    + exists (String "." s). split; [reflexivity|]. right. eauto.
    + exists rest. split; [rewrite append_cons; congruence | exact Hrest].
Qed.

Lemma append_inj_l (a b c : string) : a +:+ b = a +:+ c -> b = c.
Proof.
  induction a as [|x a IH]; rewrite ?append_nil, ?append_cons; intros H;
    [exact H | injection H; auto].
Qed.

Lemma splitext_stem_pth (stem : string) :
  has_dot stem = false -> Layout.splitext (stem +:+ ".pth") = (stem, ".pth").
Proof.
  induction stem as [|c stem IH]; intros H; [reflexivity|].
  simpl in H. apply orb_false_iff in H as [Hc Hs].
  rewrite append_cons. simpl. rewrite (IH Hs). reflexivity.
Qed.

Lemma splitext_no_dot (s : string) :
  has_dot s = false -> Layout.splitext s = (s, "").
Proof.
  induction s as [|c s IH]; intros H; [reflexivity|].
  simpl in H. apply orb_false_iff in H as [Hc Hs].
  simpl. rewrite (IH Hs), Hc. reflexivity.
Qed.

Lemma splitext_stem_ext (stem ext : string) :
  has_dot stem = false -> has_dot ext = false ->
  Layout.splitext (stem +:+ String "." ext) = (stem, String "." ext).
Proof.
  intros Hstem Hext. induction stem as [|c stem IH].
  - rewrite append_nil. simpl. now rewrite (splitext_no_dot ext Hext).
  - simpl in Hstem. apply orb_false_iff in Hstem as [Hc Hs].
    rewrite append_cons. simpl. rewrite (IH Hs). reflexivity.
Qed.

Lemma os_path_join_relative (dir name : string) :
  dir <> "" -> Py.endswith_sep dir = false ->
  Py.startswith_sep name = false ->
  Py.os_path_join dir name = dir +:+ "/" +:+ name.
Proof.
  intros Hdir Hend Hrel. unfold Py.os_path_join. rewrite Hrel, Hend.
  destruct (String.eqb_spec dir ""); [contradiction|]. reflexivity.
Qed.

Lemma startswith_sep_stem (s suffix : string) :
  Py.startswith_sep suffix = false ->
  Py.startswith_sep (fst (Py.split_on "." s) +:+ suffix) = Py.startswith_sep s.
Proof.
  intros Hsuf. destruct s as [|c s]; simpl; [exact Hsuf|].
  destruct (Py.split_on "." s) as [piece pieces].
  destruct (Ascii.eqb_spec c ".") as [->|Hc]; simpl; [exact Hsuf|reflexivity].
Qed.

Lemma os_path_join_inj (dir a b : string) :
  Py.startswith_sep a = Py.startswith_sep b ->
  Py.os_path_join dir a = Py.os_path_join dir b -> a = b.
Proof.
  unfold Py.os_path_join. intros <-.
  destruct (Py.startswith_sep a); [auto|].
  destruct (String.eqb dir "" || Py.endswith_sep dir)%bool; intros H.
  - exact (append_inj_l _ _ _ H).
  - apply append_inj_l in H. exact (append_inj_l _ _ _ H).
Qed.

Lemma name_not_suffixed (name suffix : string) :
  (forall r, suffix <> String "." r) -> suffix <> "" ->
  name <> fst (Py.split_on "." name) +:+ suffix.
Proof.
  intros Hdot Hne Heq.
  destruct (split_on_decompose name) as (rest & Hname & Hrest).
  rewrite Hname in Heq at 1. apply append_inj_l in Heq. subst rest.
  destruct Hrest as [?|[r ?]]; [contradiction|]. eapply Hdot; eauto.
Qed.

Lemma checkpoint_filename_energy (name : string) :
  checkpoint_filename "energy" name
  = fst (Py.split_on "." name) +:+ "_energy.pth".
Proof. unfold checkpoint_filename. simpl. now rewrite item0_rsplit. Qed.

Lemma checkpoint_filename_OE (name : string) :
  checkpoint_filename "OE" name = fst (Py.split_on "." name) +:+ "_OE.pth".
Proof. unfold checkpoint_filename. simpl. now rewrite item0_rsplit. Qed.

Lemma checkpoint_filename_plain (mode name : string) :
  mode <> "energy" -> mode <> "OE" -> checkpoint_filename mode name = name.
Proof.
  intros He Ho. unfold checkpoint_filename.
  destruct (String.eqb_spec mode "OE"); [contradiction|].
  destruct (String.eqb_spec mode "energy"); [contradiction|]. reflexivity.
Qed.

Open Scope list_scope.

(** ** Hinges, means and energies *)

Lemma relu_pos (x : R) : 0 <= x -> relu x = x.
Proof. intros H. unfold relu, Rmax. destruct (Rle_dec 0 x); lra. Qed.

Lemma relu_neg (x : R) : x <= 0 -> relu x = 0.
Proof. intros H. unfold relu, Rmax. destruct (Rle_dec 0 x); lra. Qed.

Lemma logsumexp_row (x : R) : logsumexp (Toy.row x) = x.
Proof.
  unfold logsumexp, classes, Rsum. simpl. rewrite Rplus_0_r. apply ln_exp.
Qed.

Lemma Rsum_cons (x : R) (l : list R) : Rsum (x :: l) = x + Rsum l.
Proof. reflexivity. Qed.

Lemma Rsum_zero (l : list R) : Forall (fun x => x = 0) l -> Rsum l = 0.
Proof.
  induction 1 as [|x l Hx _ IH]; [reflexivity|].
  rewrite Rsum_cons, IH, Hx. lra.
Qed.

Lemma tmean_zero (l : list R) :
  l <> [] -> Forall (fun x => x = 0) l -> tmean l = Some 0.
Proof.
  intros Hne Hl. destruct l as [|x l]; [contradiction|].
  unfold tmean. rewrite (Rsum_zero _ Hl). f_equal. unfold Rdiv. lra.
Qed.

Lemma Forall_map_zero {A : Type} (f : A -> R) (P : A -> Prop) (l : list A) :
  (forall a, P a -> f a = 0) -> Forall P l ->
  Forall (fun x => x = 0) (map f l).
Proof.
  intros Hf. induction 1 as [|a l Ha _ IH]; simpl; constructor; auto.
Qed.

Lemma energy_term_formula (k : nat) (outputs : list Logits) :
  energy_term k outputs = Formula.energy_mean_of_squares k outputs.
Proof.
  unfold energy_term, Formula.energy_mean_of_squares, Formula.energy.
  rewrite !map_map. f_equal. f_equal; f_equal; apply map_ext; intros r;
    f_equal; f_equal; lra.
Qed.

Lemma vsub_map {A : Type} (f g : A -> R) (l : list A) :
  vsub (map f l) (map g l) = map (fun a => f a - g a) l.
Proof. induction l as [|a l IH]; simpl; [reflexivity|now rewrite IH]. Qed.

Lemma fold_left_Rplus (l : list R) (a : R) :
  fold_left Rplus l a = a + Rsum l.
Proof.
  revert a. induction l as [|x l IH]; intros a; cbn [fold_left].
  - unfold Rsum. simpl. lra.
  - rewrite IH, Rsum_cons. lra.
Qed.

Lemma total_Rsum (l : list R) : Formula.total l = Rsum l.
Proof. unfold Formula.total. rewrite fold_left_Rplus. lra. Qed.

Lemma mean_logit_row_mean (r : Logits) : Formula.mean_logit r = row_mean r.
Proof. unfold Formula.mean_logit, row_mean. now rewrite total_Rsum. Qed.

Lemma log_sum_exp_logsumexp (r : Logits) :
  Formula.log_sum_exp r = logsumexp r.
Proof. unfold Formula.log_sum_exp, logsumexp. now rewrite total_Rsum. Qed.

Lemma oe_term_formula (k : nat) (outputs : list Logits) :
  oe_term k outputs = Formula.outlier_exposure k outputs.
Proof.
  unfold oe_term, Formula.outlier_exposure. rewrite vsub_map.
  cbv zeta. destruct (skipn k outputs) as [|r aux]; [reflexivity|].
  rewrite total_Rsum.
  rewrite (map_ext (fun r0 => Formula.mean_logit r0 - Formula.log_sum_exp r0)
                   (fun r0 => row_mean r0 - logsumexp r0))
    by (intros r0; now rewrite mean_logit_row_mean, log_sum_exp_logsumexp).
  simpl map. unfold tmean, sneg, smul. cbn [length].
  now rewrite length_map.
Qed.

Lemma log_sum_exp_pair (x : R) :
  Formula.log_sum_exp (mkLogits x [x]) = x + ln 2.
Proof.
  unfold Formula.log_sum_exp, Formula.total. simpl.
  replace (0 + exp x + exp x) with (exp x * 2) by lra.
  rewrite ln_mult; [now rewrite ln_exp | apply exp_pos | lra].
Qed.

Lemma mean_logit_pair (x : R) : Formula.mean_logit (mkLogits x [x]) = x.
Proof. unfold Formula.mean_logit, Formula.total. simpl. lra. Qed.

Lemma outlier_exposure_outputs5 :
  Formula.outlier_exposure 3 Toy.outputs5 = Some (0.5 * ln 2).
Proof.
  unfold Formula.outlier_exposure, Toy.outputs5. simpl skipn. cbv zeta.
  simpl map. rewrite !mean_logit_pair, !log_sum_exp_pair.
  unfold Formula.total. simpl. f_equal. lra.
Qed.

Lemma regularized_loss_energy (x0 : Image) (rest : list Image)
    (outputs : list Logits) (loss : Scalar) :
  regularized_loss "energy" (x0 :: rest) outputs loss
  = inr (sadd loss (energy_term (length x0) outputs)).
Proof. reflexivity. Qed.

Lemma regularized_loss_OE (x0 : Image) (rest : list Image)
    (outputs : list Logits) (loss : Scalar) :
  regularized_loss "OE" (x0 :: rest) outputs loss
  = inr (sadd loss (oe_term (length x0) outputs)).
Proof. reflexivity. Qed.

Lemma energy_row (x : R) : Formula.energy (Toy.row x) = - x.
Proof. unfold Formula.energy. now rewrite logsumexp_row. Qed.

Ltac relu_values :=
  repeat match goal with
         | |- context [relu ?x] =>
             first [rewrite (relu_pos x) by lra | rewrite (relu_neg x) by lra]
         end.

Lemma energy_term_outputs4 :
  energy_term 3 Toy.outputs4 = Some (0.1 * (4 / 3 + 0)).
Proof.
  rewrite energy_term_formula.
  unfold Formula.energy_mean_of_squares, Toy.outputs4. simpl firstn.
  simpl skipn. simpl map. rewrite !energy_row. unfold tmean, Rsum.
  simpl fold_right. simpl length. relu_values.
  replace (INR 3) with 3 by (simpl; lra). replace (INR 1) with 1 by reflexivity.
  simpl. f_equal. lra.
Qed.

Lemma energy_as_written_outputs4 :
  Formula.energy_as_written 3 Toy.outputs4 = Some (0.1 * (4 / 9 + 0)).
Proof.
  unfold Formula.energy_as_written, Toy.outputs4. simpl firstn.
  simpl skipn. simpl map. rewrite !energy_row. unfold tmean, Rsum.
  simpl fold_right. simpl length. relu_values.
  replace (INR 3) with 3 by (simpl; lra). replace (INR 1) with 1 by reflexivity.
  simpl. f_equal. lra.
Qed.

Lemma argmax_toy : argmax (mkLogits 1 [0]) = 0%nat.
Proof.
  unfold argmax. simpl. destruct (Rlt_dec 1 0); [lra|reflexivity].
Qed.

(** ** Batches and the loop of [evaluate] *)

Lemma batch_sampler_concat {A : Type} (n : nat) (batch sampler : list A) :
  concat (batch_sampler n batch sampler) = batch ++ sampler.
Proof.
  revert batch. induction sampler as [|idx rest IH]; intros batch; simpl.
  - destruct batch; simpl; [reflexivity|]. now rewrite !app_nil_r.
  - destruct (length (batch ++ [idx]) =? n)%nat; simpl; rewrite IH;
      now rewrite <- app_assoc.
Qed.

Lemma batch_sampler_nil {A : Type} (n : nat) (batch sampler : list A) :
  batch_sampler n batch sampler = [] -> batch = [] /\ sampler = [].
Proof.
  intros H. pose proof (batch_sampler_concat n batch sampler) as Hc.
  rewrite H in Hc. simpl in Hc. symmetry in Hc.
  now apply app_eq_nil in Hc.
Qed.

Lemma batches_nil (dl : DataLoader) :
  batches dl = [] -> dl_samples dl = [].
Proof.
  unfold batches. intros H. apply map_eq_nil in H.
  now apply batch_sampler_nil in H.
Qed.

Lemma flat_map_snd_collate (chunks : list (list Sample)) :
  flat_map snd (map collate chunks) = map snd (concat chunks).
Proof.
  induction chunks as [|c chunks IH]; simpl; [reflexivity|].
  now rewrite IH, map_app.
Qed.

Lemma total_labels_batches (dl : DataLoader) :
  length (flat_map snd (batches dl)) = sampler_len dl.
Proof.
  unfold batches, sampler_len.
  now rewrite flat_map_snd_collate, batch_sampler_concat, length_map.
Qed.

Lemma count_eq_filter (outputs : list Logits) (labels : list nat) :
  count_eq (map argmax outputs) labels
  = length (List.filter (fun e : Logits * nat => (argmax (fst e) =? snd e)%nat)
              (combine outputs labels)).
Proof.
  revert labels. induction outputs as [|r outputs IH]; intros [|y labels];
    simpl; try reflexivity.
  rewrite IH. destruct (argmax r =? y)%nat; reflexivity.
Qed.

Lemma fold_eval_batch (model : list Image -> list Logits)
    (crit : list Logits -> list nat -> Scalar) (bs : list Batch)
    (c t : nat) (a : Scalar) :
  fold_left (eval_batch model crit) bs (c, t, a)
  = ((c + Aggregate.n_correct model bs)%nat,
     (t + length (flat_map snd bs))%nat,
     fold_left sadd (Aggregate.batch_losses model crit bs) a).
Proof.
  revert c t a. induction bs as [|[images labels] bs IH]; intros c t a.
  - simpl. now rewrite !Nat.add_0_r.
  - simpl fold_left. rewrite IH. unfold Aggregate.n_correct. simpl.
    rewrite count_eq_filter, List.filter_app, !length_app.
    now rewrite !Nat.add_assoc.
Qed.

Lemma examples_length (B : Backend) (training : bool) (p : Params B)
    (chunks : list (list Sample)) :
  length (Aggregate.examples (forward B training p) (map collate chunks))
  = length (concat chunks).
Proof.
  unfold Aggregate.examples.
  induction chunks as [|c chunks IH]; simpl; [reflexivity|].
  rewrite !length_app, IH, length_combine, forward_rows, !length_map.
  now rewrite Nat.min_id.
Qed.

Lemma examples_batches (B : Backend) (training : bool) (p : Params B)
    (dl : DataLoader) :
  length (Aggregate.examples (forward B training p) (batches dl))
  = sampler_len dl.
Proof.
  unfold batches. now rewrite examples_length, batch_sampler_concat.
Qed.

(** ** Runs of the monadic code *)

Section Runs.

Context (B : Backend).

Lemma div_by_len_seen {X : Type} (seen : list X) (acc : Scalar) (n : nat)
    (s : State B) :
  seen <> [] -> div_by_len seen acc n s = (Done (sdiv_nat acc n), s).
Proof. destruct seen; [contradiction|reflexivity]. Qed.

Lemma int_div_pos (c t : nat) (s : State B) :
  t <> O -> int_div c t s = (Done (INR c / INR t), s).
Proof. destruct t; [contradiction|reflexivity]. Qed.

Lemma batches_not_nil (dl : DataLoader) :
  dl_samples dl <> [] -> batches dl <> [].
Proof. intros H Hb. apply H. now apply batches_nil. Qed.

Lemma evaluate_run (dl : DataLoader) (epoch : nat)
    (crit : list Logits -> list nat -> Scalar)
    (writer : option SummaryWriter) (s : State B) :
  dl_samples dl <> [] ->
  let model := forward B false (st_params s) in
  evaluate B dl epoch crit writer s
  = (Done (Aggregate.accuracy model (batches dl)),
     {| st_rng := st_rng s; st_params := st_params s; st_opt := st_opt s;
        st_training := false; st_steps := st_steps s;
        st_files := st_files s;
        st_trace :=
          st_trace s
          ++ EvEvalMode
             :: eval_scalars writer
                  (Aggregate.avg_loss_per_sample model crit dl)
                  (Aggregate.accuracy model (batches dl)) epoch |}).
Proof.
  intros Hne model.
  unfold evaluate, model_eval, bind, log, set_training, get. simpl.
  rewrite fold_eval_batch. fold model.
  rewrite div_by_len_seen by now apply batches_not_nil.
  rewrite int_div_pos.
  2:{ simpl. rewrite total_labels_batches. unfold sampler_len.
      destruct (dl_samples dl); [contradiction|discriminate]. }
  unfold Aggregate.accuracy, Aggregate.avg_loss_per_sample, Aggregate.ssum.
  subst model. rewrite examples_batches, total_labels_batches. simpl.
  destruct writer; unfold add_scalar, log, ret; simpl;
    rewrite <- ?app_assoc; reflexivity.
Qed.

Lemma batch_sampler_nonempty {A : Type} (n : nat) (batch sampler : list A) :
  Forall (fun c => c <> []) (batch_sampler n batch sampler).
Proof.
  revert batch. induction sampler as [|idx rest IH]; intros batch; simpl.
  - destruct batch; constructor; [discriminate|constructor].
  - destruct (length (batch ++ [idx]) =? n)%nat; [constructor|]; auto.
    intros H. now apply app_eq_nil in H as [_ H].
Qed.

Lemma batches_inputs (dl : DataLoader) :
  Forall (fun b : Batch => fst b <> []) (batches dl).
Proof.
  unfold batches.
  induction (batch_sampler_nonempty (dl_batch_size dl) [] (dl_samples dl))
    as [|c chunks Hc _ IH]; simpl; constructor; [|exact IH].
  destruct c; [contradiction|discriminate].
Qed.

Lemma regularized_loss_total (sc : string) (inputs : list Image)
    (outputs : list Logits) (loss : Scalar) :
  inputs <> [] -> exists l, regularized_loss sc inputs outputs loss = inr l.
Proof.
  intros Hne. unfold regularized_loss.
  destruct inputs as [|x0 rest]; [contradiction|]. simpl.
  destruct (String.eqb sc "energy"); [eauto|].
  destruct (String.eqb sc "OE"); eauto.
Qed.

Lemma train_batch_run (argv : Args) (acc : Scalar) (b : Batch) (s : State B) :
  fst b <> [] -> st_training s = true ->
  exists p' o',
    sgd_step B (st_steps s) (st_params s) (st_opt s) b (score argv) = (p', o') /\
    train_batch B argv acc b s
    = (Done (sadd acc
               (hd None
                  (training_losses B (score argv) (st_steps s) (st_params s)
                     (st_opt s) [b]))),
       {| st_rng := st_rng s; st_params := p'; st_opt := o';
          st_training := true; st_steps := S (st_steps s);
          st_files := st_files s;
          st_trace := st_trace s ++ batch_events |}).
Proof.
  intros Hne Htr. destruct b as [inputs labels]. simpl in Hne.
  destruct (sgd_step B (st_steps s) (st_params s) (st_opt s)
              (inputs, labels) (score argv)) as [p' o'] eqn:Hstep.
  exists p', o'. split; [reflexivity|].
  unfold train_batch, model_call, bind, log, get, ret. simpl.
  rewrite Htr, Hstep. simpl.
  destruct (regularized_loss_total (score argv) inputs
              (forward B true (st_params s) inputs)
              (criterion B (forward B true (st_params s) inputs) labels) Hne)
    as [l Hl].
  rewrite Hl. simpl. unfold backward_and_step, bind, log. simpl.
  rewrite Hstep. unfold batch_events. rewrite <- !app_assoc. reflexivity.
Qed.

Lemma train_loop_run (argv : Args) (bs : list Batch) (acc : Scalar)
    (s : State B) :
  Forall (fun b : Batch => fst b <> []) bs -> st_training s = true ->
  exists p' o',
    for_each bs (train_batch B argv) acc s
    = (Done (fold_left sadd
               (training_losses B (score argv) (st_steps s) (st_params s)
                  (st_opt s) bs) acc),
       {| st_rng := st_rng s; st_params := p'; st_opt := o';
          st_training := true; st_steps := (st_steps s + length bs)%nat;
          st_files := st_files s;
          st_trace :=
            st_trace s ++ concat (map (fun _ : Batch => batch_events) bs) |}).
Proof.
  intros Hbs. revert acc s.
  induction Hbs as [|b bs Hb _ IH]; intros acc s Htr.
  - exists (st_params s), (st_opt s). simpl. unfold ret.
    rewrite Nat.add_0_r, app_nil_r, <- Htr. now destruct s.
  - destruct (train_batch_run argv acc b s Hb Htr) as (p1 & o1 & Hstep & Hrun).
    simpl for_each. unfold bind. rewrite Hrun.
    match goal with
    | |- context [for_each bs _ ?a ?s1] =>
        destruct (IH a s1 eq_refl) as (p' & o' & Hloop)
    end.
    exists p', o'. rewrite Hloop. simpl. rewrite Hstep. simpl.
    rewrite <- app_assoc, Nat.add_succ_r. reflexivity.
Qed.

Lemma periodic_eval_skip (argv : Args) (env : Env B) (epoch : nat)
    (s : State B) :
  saves_in argv epoch = false ->
  periodic_eval B argv env epoch s = (Done tt, s).
Proof.
  unfold saves_in, periodic_eval. intros H.
  destruct (epoch mod 10 =? 0)%nat; [|reflexivity].
  destruct (local_rank argv =? 0)%Z; [discriminate|reflexivity].
Qed.

Lemma periodic_eval_run (argv : Args) (env : Env B) (epoch : nat)
    (s : State B) :
  saves_in argv epoch = true -> env_test env <> [] ->
  periodic_eval B argv env epoch s
  = (Done tt,
     {| st_rng := st_rng s; st_params := st_params s; st_opt := st_opt s;
        st_training := false; st_steps := st_steps s;
        st_files :=
          <[model_filepath argv :=
              {| ck_device := Cuda (local_rank argv);
                 ck_state := st_params s |}]> (st_files s);
        st_trace := st_trace s ++ periodic_events B argv env epoch s |}).
Proof.
  unfold saves_in, periodic_eval. intros H Htest.
  apply andb_true_iff in H as [-> ->].
  unfold bind. rewrite evaluate_run by exact Htest.
  unfold torch_save, print, log, periodic_events, eval_scalars. simpl.
  rewrite <- !app_assoc. reflexivity.
Qed.

Lemma bind_done {A C : Type} (m : M B A) (k : A -> M B C) (s s' : State B)
    (a : A) :
  m s = (Done a, s') -> bind m k s = k a s'.
Proof. unfold bind. now intros ->. Qed.

Lemma bind_stop {A C : Type} (m : M B A) (k : A -> M B C) (s s' : State B)
    (h : Halt) :
  m s = (Stop h, s') -> bind m k s = (Stop h, s').
Proof. unfold bind. now intros ->. Qed.

Lemma model_train_run (s : State B) :
  model_train B s
  = (Done tt,
     {| st_rng := st_rng s; st_params := st_params s; st_opt := st_opt s;
        st_training := true; st_steps := st_steps s;
        st_files := st_files s; st_trace := st_trace s ++ [EvTrainMode] |}).
Proof. reflexivity. Qed.

Lemma log_run (e : Event) (s : State B) :
  log e s
  = (Done tt,
     {| st_rng := st_rng s; st_params := st_params s; st_opt := st_opt s;
        st_training := st_training s; st_steps := st_steps s;
        st_files := st_files s; st_trace := st_trace s ++ [e] |}).
Proof. reflexivity. Qed.

Lemma run_epoch_run (argv : Args) (env : Env B) (epoch : nat) (s : State B) :
  env_train env epoch <> [] ->
  (saves_in argv epoch = true -> env_test env <> []) ->
  exists p' o',
    run_epoch B argv env epoch s
    = (Done tt,
       {| st_rng := st_rng s; st_params := p'; st_opt := o';
          st_training := true;
          st_steps :=
            (st_steps s + length (batches (train_loader B argv env epoch)))%nat;
          st_files :=
            if saves_in argv epoch
            then <[model_filepath argv :=
                     {| ck_device := Cuda (local_rank argv);
                        ck_state := st_params s |}]> (st_files s)
            else st_files s;
          st_trace := st_trace s ++ epoch_events B argv env epoch s |}).
Proof.
  intros Htrain Htest.
  pose proof (batches_inputs (train_loader B argv env epoch)) as Hbs.
  assert (Hne : batches (train_loader B argv env epoch) <> [])
    by now apply batches_not_nil.
  unfold run_epoch, epoch_events, epoch_train_loss, Aggregate.ssum.
  erewrite bind_done by apply log_run.
  assert (Hper : exists s1,
             periodic_eval B argv env epoch
               {| st_rng := st_rng s; st_params := st_params s;
                  st_opt := st_opt s; st_training := st_training s;
                  st_steps := st_steps s; st_files := st_files s;
                  st_trace :=
                    st_trace s
                    ++ [EvPrint (MsgTraining (local_rank argv) epoch)] |}
             = (Done tt, s1) /\
             st_rng s1 = st_rng s /\ st_params s1 = st_params s /\
             st_opt s1 = st_opt s /\ st_steps s1 = st_steps s /\
             st_files s1
             = (if saves_in argv epoch
                then <[model_filepath argv :=
                         {| ck_device := Cuda (local_rank argv);
                            ck_state := st_params s |}]> (st_files s)
                else st_files s) /\
             st_trace s1
             = st_trace s
               ++ [EvPrint (MsgTraining (local_rank argv) epoch)]
               ++ (if saves_in argv epoch
                   then periodic_events B argv env epoch s else [])).
  { destruct (saves_in argv epoch) eqn:Hsave.
    - rewrite periodic_eval_run by auto. eexists. split; [reflexivity|].
      simpl. rewrite <- app_assoc. auto 10.
    - rewrite periodic_eval_skip by auto. eexists. split; [reflexivity|].
      simpl. auto 10. }
  destruct Hper as (s1 & Hrun1 & Hrng & Hp & Ho & Hsteps & Hfiles & Htrace).
  erewrite bind_done by exact Hrun1.
  erewrite bind_done by apply model_train_run.
  match goal with
  | |- context [bind (for_each ?bs _ ?a) _ ?s2] =>
      destruct (train_loop_run argv bs a s2 Hbs eq_refl)
        as (p' & o' & Hloop)
  end.
  exists p', o'. erewrite bind_done by exact Hloop.
  erewrite bind_done by (apply div_by_len_seen; exact Hne).
  unfold add_scalar. rewrite log_run. simpl.
  rewrite Hrng, Hp, Ho, Hsteps, Hfiles, Htrace, <- !app_assoc. reflexivity.
Qed.

Lemma train_batch_fst (argv : Args) (acc : Scalar)
    (inputs : list Image) (labels : list nat) (s : State B) (l : Scalar) :
  let outputs := forward B (st_training s) (st_params s) inputs in
  regularized_loss (score argv) inputs outputs (criterion B outputs labels)
  = inr l ->
  fst (train_batch B argv acc (inputs, labels) s) = Done (sadd acc l).
Proof.
  intros outputs Hreg.
  unfold train_batch, model_call, bind, log, get, ret. simpl.
  fold outputs. rewrite Hreg. simpl.
  unfold backward_and_step, bind, log. simpl.
  now destruct (sgd_step B _ _ _ _ _).
Qed.

End Runs.

Section MainRuns.

Context (B : Backend).

Lemma epoch_loop_run (argv : Args) (env : Env B) (n first : nat)
    (s : State B) :
  env_test env <> [] -> (forall e, env_train env e <> []) ->
  exists (segs : list (list Event)) (s' : State B),
    epoch_loop B argv env first n s = (Done tt, s') /\
    st_trace s' = st_trace s ++ concat segs /\
    length segs = n /\
    forall i seg, nth_error segs i = Some seg ->
      exists si, seg = epoch_events B argv env (first + i) si.
Proof.
  intros Htest Htrain. revert first s.
  induction n as [|n IH]; intros first s.
  - exists [], s. simpl. rewrite app_nil_r. repeat split.
    intros [|i] seg; discriminate.
  - destruct (run_epoch_run B argv env first s (Htrain first) (fun _ => Htest))
      as (p1 & o1 & Hrun).
    simpl epoch_loop. erewrite bind_done by exact Hrun.
    match goal with
    | |- context [epoch_loop B argv env (S first) n ?s1] =>
        destruct (IH (S first) s1) as (segs & s' & Hloop & Htrace & Hlen & Hseg)
    end.
    exists (epoch_events B argv env first s :: segs), s'.
    split; [exact Hloop|]. split.
    { rewrite Htrace. simpl. now rewrite <- app_assoc. }
    split; [simpl; now rewrite Hlen|].
    intros [|i] seg Hnth; simpl in Hnth.
    + injection Hnth as <-. exists s. now rewrite Nat.add_0_r.
    + destruct (Hseg i seg Hnth) as [si ->]. exists si.
      now rewrite Nat.add_succ_r.
Qed.

Lemma resume_checkpoint_skip (argv : Args) (s : State B) :
  resume argv = false -> resume_checkpoint B argv s = (Done tt, s).
Proof. unfold resume_checkpoint. now intros ->. Qed.

Lemma resume_checkpoint_missing (argv : Args) (s : State B) :
  resume argv = true -> st_files s !! model_filepath argv = None ->
  resume_checkpoint B argv s = (Stop (Raise FileNotFoundError), s).
Proof.
  unfold resume_checkpoint, torch_load, bind, get. intros -> Hnone. simpl.
  now rewrite Hnone.
Qed.

Lemma resume_checkpoint_refused (argv : Args) (s : State B)
    (ck : Checkpoint B) :
  resume argv = true -> st_files s !! model_filepath argv = Some ck ->
  loadable B (st_params s) (ck_state ck) = false ->
  resume_checkpoint B argv s
  = (Stop (Raise RuntimeError),
     {| st_rng := st_rng s; st_params := st_params s; st_opt := st_opt s;
        st_training := st_training s; st_steps := st_steps s;
        st_files := st_files s;
        st_trace :=
          st_trace s
          ++ [EvLoad (model_filepath argv)
                (map_location_get [(Cuda 0, Cuda (local_rank argv))]
                   (ck_device ck))] |}).
Proof.
  unfold resume_checkpoint, torch_load, load_state_dict, bind, get.
  intros -> Hsome Hload. simpl. rewrite Hsome. simpl. now rewrite Hload.
Qed.

Lemma resume_checkpoint_loaded (argv : Args) (s : State B)
    (ck : Checkpoint B) :
  resume argv = true -> st_files s !! model_filepath argv = Some ck ->
  loadable B (st_params s) (ck_state ck) = true ->
  resume_checkpoint B argv s
  = (Done tt,
     {| st_rng := st_rng s; st_params := ck_state ck; st_opt := st_opt s;
        st_training := st_training s; st_steps := st_steps s;
        st_files := st_files s;
        st_trace :=
          st_trace s
          ++ [EvLoad (model_filepath argv)
                (map_location_get [(Cuda 0, Cuda (local_rank argv))]
                   (ck_device ck))] |}).
Proof.
  unfold resume_checkpoint, torch_load, load_state_dict, bind, get.
  intros -> Hsome Hload. simpl. rewrite Hsome. simpl. now rewrite Hload.
Qed.

Lemma initial_state_trace (argv : Args) (env : Env B) :
  st_trace (initial_state B argv env) = [] /\
  st_files (initial_state B argv env) = env_files env /\
  st_steps (initial_state B argv env) = O /\
  st_opt (initial_state B argv env) = sgd_init B (learning_rate argv).
Proof.
  unfold initial_state.
  destruct (resnet50 B (torch_gen (set_random_seeds (random_seed argv)
                                     (env_rng env)))); auto.
Qed.

(** The resume block, when it succeeds: only the parameters and the trace
    change, and the trace gets at most the load. *)
Lemma resume_checkpoint_ok (argv : Args) (env : Env B) :
  resume_ok B argv env ->
  exists s1 : State B,
    resume_checkpoint B argv (initial_state B argv env) = (Done tt, s1) /\
    Forall (fun ev => is_setup ev = true) (st_trace s1) /\
    st_files s1 = env_files env /\ st_steps s1 = O.
Proof.
  intros Hok. destruct (initial_state_trace argv env) as (Ht & Hf & Hs & _).
  destruct (resume argv) eqn:Hres.
  - destruct (Hok Hres) as (ck & Hfile & Hload).
    rewrite <- Hf in Hfile.
    rewrite (resume_checkpoint_loaded argv _ ck Hres Hfile Hload).
    eexists. split; [reflexivity|]. simpl. rewrite Ht. simpl.
    repeat split; auto.
  - rewrite (resume_checkpoint_skip argv _ Hres).
    eexists. split; [reflexivity|]. rewrite Ht. repeat split; auto.
Qed.

Lemma check_batch_size_ok (argv : Args) (s : State B) :
  (0 < batch_size argv)%Z -> check_batch_size B argv s = (Done tt, s).
Proof.
  unfold check_batch_size. intros H.
  destruct (Z.leb_spec (batch_size argv) 0); [lia|reflexivity].
Qed.

Lemma main_training_run (argv : Args) (env : Env B) :
  eval argv = false -> (0 < batch_size argv)%Z -> resume_ok B argv env ->
  env_test env <> [] -> (forall e, env_train env e <> []) ->
  exists (setup : list Event) (segs : list (list Event)) (s' : State B),
    main B argv env = (Done tt, s') /\
    st_trace s' = setup ++ concat segs ++ [EvWriterClose] /\
    Forall (fun ev => is_setup ev = true) setup /\
    length segs = Z.to_nat (num_epochs argv) /\
    forall e seg, nth_error segs e = Some seg ->
      exists si, seg = epoch_events B argv env e si.
Proof.
  intros Heval Hbatch Hres Htest Htrain.
  destruct (resume_checkpoint_ok argv env Hres) as (s1 & Hrun1 & Hsetup & _).
  unfold main, main_body. erewrite bind_done by exact Hrun1.
  unfold train_or_eval. erewrite bind_done by now apply check_batch_size_ok.
  erewrite bind_done by apply log_run. rewrite Heval.
  match goal with
  | |- context [bind (epoch_loop B argv env O ?n) _ ?s2] =>
      destruct (epoch_loop_run argv env n O s2 Htest Htrain)
        as (segs & s' & Hloop & Htrace & Hlen & Hseg)
  end.
  erewrite bind_done by exact Hloop. rewrite log_run.
  exists (st_trace s1 ++ [EvWriterOpen]), segs. eexists.
  split; [reflexivity|]. simpl. rewrite Htrace. simpl.
  split; [now rewrite <- !app_assoc|].
  split; [apply Forall_app; split; [exact Hsetup|repeat constructor]|].
  split; [exact Hlen|]. exact Hseg.
Qed.

End MainRuns.

(** ** The events of an epoch *)

Lemma saves_in_spec (argv : Args) (epoch : nat) :
  saves_in argv epoch = true <-> (epoch mod 10 = 0)%nat /\ local_rank argv = 0%Z.
Proof.
  unfold saves_in. rewrite andb_true_iff, Nat.eqb_eq, Z.eqb_eq. reflexivity.
Qed.

Lemma loop_events_batch (bs : list Batch) :
  Forall (fun ev => is_batch_event ev = true)
    (concat (map (fun _ : Batch => batch_events) bs)).
Proof.
  induction bs as [|b bs IH]; simpl; [constructor|].
  repeat (constructor; [reflexivity|]). exact IH.
Qed.

Lemma Forall_batch_event (P : Event -> Prop) (l : list Event) :
  (forall ev, is_batch_event ev = true -> P ev) ->
  Forall (fun ev => is_batch_event ev = true) l -> Forall P l.
Proof. intros HP. induction 1; constructor; auto. Qed.

(** The shape of an epoch in which this worker evaluates and saves. *)
Lemma epoch_events_saving (B : Backend) (argv : Args) (env : Env B)
    (epoch : nat) (s : State B) :
  saves_in argv epoch = true ->
  exists pre post,
    epoch_events B argv env epoch s
    = EvPrint (MsgTraining (local_rank argv) epoch)
      :: pre ++ EvSave (model_filepath argv) :: post /\
    In EvEvalMode pre /\
    Forall (fun ev => is_save ev = false /\ is_training_print ev = false)
      (pre ++ post).
Proof.
  intros Hsave. unfold epoch_events, periodic_events. rewrite Hsave.
  eexists [EvEvalMode; EvScalar _ _ _; EvScalar _ _ _]. eexists.
  split; [simpl; reflexivity|]. split; [now left|]. simpl.
  repeat (constructor; [split; reflexivity|]).
  apply Forall_app. split; [|repeat constructor].
  eapply Forall_batch_event; [|apply loop_events_batch].
  now intros [] Hev.
Qed.

(** The shape of any other epoch. *)
Lemma epoch_events_quiet (B : Backend) (argv : Args) (env : Env B)
    (epoch : nat) (s : State B) :
  saves_in argv epoch = false ->
  exists rest,
    epoch_events B argv env epoch s
    = EvPrint (MsgTraining (local_rank argv) epoch) :: rest /\
    Forall (fun ev => is_save ev = false /\ is_eval_mode ev = false /\
                      is_test_scalar ev = false /\
                      is_training_print ev = false) rest.
Proof.
  intros Hsave. unfold epoch_events. rewrite Hsave.
  eexists. split; [simpl; reflexivity|].
  constructor; [repeat split|].
  apply Forall_app. split; [|repeat constructor].
  eapply Forall_batch_event; [|apply loop_events_batch].
  now intros [] Hev.
Qed.

Lemma training_losses_length (B : Backend) (sc : string) (bs : list Batch)
    (n : nat) (p : Params B) (o : OptState B) :
  length (training_losses B sc n p o bs) = length bs.
Proof.
  revert n p o. induction bs as [|b bs IH]; intros n p o; [reflexivity|].
  simpl. destruct (sgd_step B n p o b sc) as [p' o']. simpl. now rewrite IH.
Qed.

Lemma periodic_events_no_train_scalar (B : Backend) (argv : Args)
    (env : Env B) (epoch : nat) (s : State B) :
  Forall (fun ev => is_train_scalar ev = false)
    (periodic_events B argv env epoch s).
Proof. unfold periodic_events. repeat constructor. Qed.

(** ** The evaluation-only mode *)

Section Modes.

Context (B : Backend).

Lemma evaluate_empty (dl : DataLoader) (epoch : nat)
    (crit : list Logits -> list nat -> Scalar)
    (writer : option SummaryWriter) (s : State B) :
  dl_samples dl = [] ->
  evaluate B dl epoch crit writer s
  = (Stop (Raise ZeroDivisionError),
     {| st_rng := st_rng s; st_params := st_params s; st_opt := st_opt s;
        st_training := false; st_steps := st_steps s;
        st_files := st_files s; st_trace := st_trace s ++ [EvEvalMode] |}).
Proof.
  intros Hnil. unfold evaluate, batches, sampler_len. rewrite Hnil. reflexivity.
Qed.

(** What the resume block may change: the parameters, by a checkpoint of
    the environment, and the trace, by the load. *)
Lemma resume_checkpoint_frame (argv : Args) (s : State B) :
  exists (r : Res unit) (s1 : State B) (tl : list Event),
    resume_checkpoint B argv s = (r, s1) /\
    st_opt s1 = st_opt s /\ st_steps s1 = st_steps s /\
    st_files s1 = st_files s /\
    st_trace s1 = st_trace s ++ tl /\
    Forall (fun ev => is_setup ev = true) tl /\
    (st_params s1 = st_params s \/
     exists ck, resume argv = true /\
                st_files s !! model_filepath argv = Some ck /\
                st_params s1 = ck_state ck).
Proof.
  destruct (resume argv) eqn:Hres.
  - destruct (st_files s !! model_filepath argv) as [ck|] eqn:Hfile.
    + destruct (loadable B (st_params s) (ck_state ck)) eqn:Hload.
      * rewrite (resume_checkpoint_loaded B argv s ck Hres Hfile Hload).
        do 3 eexists. split; [reflexivity|]. simpl.
        repeat split; [repeat constructor|]. right. eauto.
      * rewrite (resume_checkpoint_refused B argv s ck Hres Hfile Hload).
        do 3 eexists. split; [reflexivity|]. simpl.
        repeat split; [repeat constructor|]. now left.
    + rewrite (resume_checkpoint_missing B argv s Hres Hfile).
      exists (Stop (Raise FileNotFoundError)), s, [].
      rewrite app_nil_r. repeat split; auto.
  - rewrite (resume_checkpoint_skip B argv s Hres).
    exists (Done tt), s, []. rewrite app_nil_r. repeat split; auto.
Qed.

(** With [--eval], what follows the resume block stops without a step, a
    save or a training line, and the state keeps its parameters, its
    optimizer and its files. *)
Lemma train_or_eval_eval (argv : Args) (env : Env B) (s : State B) :
  eval argv = true ->
  exists (h : Halt) (s2 : State B) (tl : list Event),
    train_or_eval B argv env s = (Stop h, s2) /\
    st_params s2 = st_params s /\ st_opt s2 = st_opt s /\
    st_steps s2 = st_steps s /\ st_files s2 = st_files s /\
    st_trace s2 = st_trace s ++ tl /\
    Forall (fun ev => is_batch_event ev = false /\ is_save ev = false /\
                      is_training_print ev = false) tl /\
    ((0 < batch_size argv)%Z -> env_test env <> [] ->
     h = Exit 0 /\
     tl = [EvWriterOpen; EvEvalMode;
           EvPrint (MsgTestAccuracy
                      (Aggregate.accuracy (forward B false (st_params s))
                         (batches (test_loader B env))))]).
Proof.
  intros Heval. unfold train_or_eval, check_batch_size.
  destruct (Z.leb_spec (batch_size argv) 0) as [Hle|Hlt].
  - exists (Raise ValueError), s, []. rewrite app_nil_r.
    repeat split; auto. all: lia.
  - erewrite bind_done by reflexivity.
    erewrite bind_done by apply log_run. rewrite Heval. unfold eval_only.
    destruct (env_test env) as [|x test] eqn:Htest.
    + erewrite bind_stop by (apply evaluate_empty; exact Htest).
      eexists _, _, [EvWriterOpen; EvEvalMode].
      split; [reflexivity|]. simpl. rewrite <- app_assoc.
      repeat (split; [reflexivity|]). split; [repeat constructor|].
      intros _ Hne. contradiction.
    + assert (Hne : dl_samples (test_loader B env) <> [])
        by (simpl; rewrite Htest; discriminate).
      erewrite bind_done by (apply evaluate_run; exact Hne).
      unfold print. erewrite bind_done by apply log_run.
      unfold exit.
      eexists _, _, [EvWriterOpen; EvEvalMode; EvPrint _].
      split; [reflexivity|]. simpl. rewrite <- !app_assoc. simpl.
      repeat (split; [reflexivity|]). split; [repeat constructor|].
      intros _ _. split; reflexivity.
Qed.

End Modes.

(** * The claims *)

(** C1 (amended): under [--score energy], the loss of every batch is the
    base loss plus a tenth of the sum of two means, over the rows before
    and from index [len(inputs[0])] on, of the squared hinges
    [relu(E + 25)^2] and [relu(-7 - E)^2], where [E] is the opposite of the
    log-sum-exp of a row: each hinge is squared before the mean is taken.
    The term is 0 when both parts have a row, every energy of the first
    is at most -25 and every energy of the second at least -7. *)
Theorem energy_term_mean_of_squares (B : Backend) (argv : Args) (x0 : Image)
    (rest : list Image) (labels : list nat) (acc : Scalar) (s : State B) :
  score argv = "energy"%string ->
  let k := length x0 in
  (forall outputs loss,
     regularized_loss (score argv) (x0 :: rest) outputs loss
     = inr (sadd loss (Formula.energy_mean_of_squares k outputs))) /\
  (let outputs := forward B (st_training s) (st_params s) (x0 :: rest) in
   fst (train_batch B argv acc (x0 :: rest, labels) s)
   = Done (sadd acc
             (sadd (criterion B outputs labels)
                (Formula.energy_mean_of_squares k outputs)))) /\
  (forall outputs,
     firstn k outputs <> [] -> skipn k outputs <> [] ->
     Forall (fun r => Formula.energy r <= -25) (firstn k outputs) ->
     Forall (fun r => -7 <= Formula.energy r) (skipn k outputs) ->
     Formula.energy_mean_of_squares k outputs = Some 0).
Proof.
  intros Hscore k.
  assert (Hreg : forall outputs loss,
             regularized_loss (score argv) (x0 :: rest) outputs loss
             = inr (sadd loss (Formula.energy_mean_of_squares k outputs))).
  { intros outputs loss.
    now rewrite Hscore, regularized_loss_energy, energy_term_formula. }
  split; [exact Hreg|]. split.
  - intros outputs. apply train_batch_fst. apply Hreg.
  - intros outputs Hin Hout Hlow Hhigh.
    unfold Formula.energy_mean_of_squares. rewrite !map_map.
    rewrite (tmean_zero (map _ (firstn k outputs))),
      (tmean_zero (map _ (skipn k outputs))).
    + simpl. f_equal. lra.
    + intros H. apply map_eq_nil in H. contradiction.
    + eapply Forall_map_zero; cycle 1; [exact Hhigh|].
      intros r Hr. cbv beta in Hr. rewrite relu_neg by lra. simpl. lra.
    + intros H. apply map_eq_nil in H. contradiction.
    + eapply Forall_map_zero; cycle 1; [exact Hlow|].
      intros r Hr. cbv beta in Hr. rewrite relu_neg by lra. simpl. lra.
Qed.

Lemma energy_term_mean_of_squares_witness :
  regularized_loss "energy" [Toy.image; Toy.image; Toy.image; Toy.image]
    [Toy.row 25; Toy.row 26; Toy.row 27; Toy.row 7] (Some 1)
  = inr (Some (1 + 0)).
Proof.
  destruct (energy_term_mean_of_squares Toy.backend (Toy.argv_score "energy")
              Toy.image [Toy.image; Toy.image; Toy.image] [] (Some 0)
              Toy.state0 eq_refl)
    as (Hloss & _ & Hzero).
  change (score (Toy.argv_score "energy")) with "energy"%string in Hloss.
  rewrite Hloss, Hzero; [reflexivity | discriminate | discriminate | |].
  - simpl. repeat constructor; rewrite energy_row; lra.
  - simpl. repeat constructor; rewrite energy_row; lra.
Defined.

(** With energies -23, -25, -25 before the split and -7 after it, the
    code adds [0.1 * 4/3] where the formula as written gives [0.1 * 4/9];
    and a batch of two rows, which leaves no row after the split, gets a
    term that is not a number although every energy is in its band. *)
Lemma energy_term_counterexample :
  regularized_loss "energy" [Toy.image; Toy.image; Toy.image; Toy.image]
    Toy.outputs4 (Some 0)
  <> inr (sadd (Some 0)
            (Formula.energy_as_written (length Toy.image) Toy.outputs4)) /\
  Forall (fun r => Formula.energy r <= -25)
    (firstn (length Toy.image) Toy.outputs2) /\
  Forall (fun r => -7 <= Formula.energy r)
    (skipn (length Toy.image) Toy.outputs2) /\
  regularized_loss "energy" [Toy.image; Toy.image] Toy.outputs2 (Some 0)
  <> inr (sadd (Some 0) (Some 0)).
Proof.
  split; [|split; [|split]].
  - rewrite regularized_loss_energy. change (length Toy.image) with 3%nat.
    rewrite energy_term_outputs4, energy_as_written_outputs4. simpl.
    intros H. injection H. lra.
  - simpl. repeat constructor; rewrite energy_row; lra.
  - simpl. constructor.
  - rewrite regularized_loss_energy. simpl. discriminate.
Qed.

(** C2 (amended): on a loader that is not empty, [evaluate] returns the
    accuracy alone, the number of examples whose arg-max logit is the
    label over the number of examples; the average loss is not returned
    but written, with the accuracy, to the writer when one is given, and
    is the sum of the losses of the batches divided by the length of the
    sampler, which is the number of examples. *)
Theorem evaluate_accuracy_and_sampler_loss (B : Backend) (dl : DataLoader)
    (epoch : nat) (crit : list Logits -> list nat -> Scalar)
    (writer : option SummaryWriter) (s : State B) :
  dl_samples dl <> [] ->
  let model := forward B false (st_params s) in
  let accuracy :=
    INR (Aggregate.n_correct model (batches dl))
    / INR (length (dl_samples dl)) in
  let avg_loss :=
    sdiv_nat (Aggregate.ssum (Aggregate.batch_losses model crit (batches dl)))
      (length (dl_samples dl)) in
  length (Aggregate.examples model (batches dl)) = length (dl_samples dl) /\
  fst (evaluate B dl epoch crit writer s) = Done accuracy /\
  st_trace (snd (evaluate B dl epoch crit writer s))
  = st_trace s ++ EvEvalMode :: eval_scalars writer avg_loss accuracy epoch /\
  st_params (snd (evaluate B dl epoch crit writer s)) = st_params s /\
  st_files (snd (evaluate B dl epoch crit writer s)) = st_files s.
Proof.
  intros Hne model accuracy avg_loss.
  pose proof (examples_batches B false (st_params s) dl) as Hex.
  fold model in Hex. unfold sampler_len in Hex.
  rewrite (evaluate_run B dl epoch crit writer s Hne). simpl.
  unfold Aggregate.accuracy, Aggregate.avg_loss_per_sample, sampler_len.
  fold model. rewrite Hex. auto.
Qed.

Lemma evaluate_accuracy_and_sampler_loss_witness :
  fst (evaluate Toy.backend Toy.loader 0 (criterion Toy.backend) None
         Toy.state0)
  = Done (INR (Aggregate.n_correct (forward Toy.backend false 0%nat)
                 (batches Toy.loader)) / INR 3).
Proof.
  destruct (evaluate_accuracy_and_sampler_loss Toy.backend Toy.loader 0
              (criterion Toy.backend) None Toy.state0)
    as (_ & Hacc & _); [discriminate|exact Hacc].
Defined.

(** Three examples in two batches whose losses are 1 and 1: the test loss
    written is 2/3, the sum over the three examples of the sampler, and
    not 2/2, the sum over the two batches. *)
Lemma evaluate_avg_loss_counterexample :
  let model := forward Toy.backend false (st_params Toy.state0) in
  let r := evaluate Toy.backend Toy.loader 0 (criterion Toy.backend)
             (Some Writer) Toy.state0 in
  length (batches Toy.loader) = 2%nat /\
  st_trace (snd r)
  = [EvEvalMode;
     EvScalar "Loss/test" (Some ((0 + 1 + 1) / INR 3)) 0;
     EvScalar "Accuracy/test" (Some (INR 2 / INR 3)) 0] /\
  Aggregate.avg_loss_per_batch model (criterion Toy.backend)
    (batches Toy.loader)
  = Some ((0 + 1 + 1) / INR 2) /\
  (0 + 1 + 1) / INR 3 <> (0 + 1 + 1) / INR 2.
Proof.
  intros model r. split; [reflexivity|]. split; [|split].
  - subst r. rewrite evaluate_run by discriminate.
    unfold Aggregate.accuracy, Aggregate.n_correct. simpl.
    rewrite !argmax_toy. reflexivity.
  - reflexivity.
  - simpl. lra.
Qed.

(** C3: in a training run that meets no fault, the trace is made of the
    set-up, one segment per epoch index below [num_epochs] and the closing
    of the writer.  The segment of epoch [e] opens with the training line
    of [e]; it holds a checkpoint save if and only if [e mod 10 = 0] and
    the local rank is 0, and then the evaluation comes before the save,
    which is the only one; in every other epoch, and on every other rank,
    the segment holds no save, no switch to evaluation mode and no test
    scalar. *)
Theorem periodic_checkpoint_schedule (B : Backend) (argv : Args)
    (env : Env B) :
  eval argv = false -> (0 < batch_size argv)%Z -> resume_ok B argv env ->
  env_test env <> [] -> (forall e, env_train env e <> []) ->
  exists (setup : list Event) (segs : list (list Event)),
    fst (main B argv env) = Done tt /\
    st_trace (snd (main B argv env))
    = setup ++ concat segs ++ [EvWriterClose] /\
    Forall (fun ev => is_save ev = false /\ is_eval_mode ev = false) setup /\
    length segs = Z.to_nat (num_epochs argv) /\
    forall e seg, nth_error segs e = Some seg ->
      hd_error seg = Some (EvPrint (MsgTraining (local_rank argv) e)) /\
      Forall (fun ev => is_training_print ev = false) (tl seg) /\
      ((exists path, In (EvSave path) seg)
       <-> (e mod 10 = 0)%nat /\ local_rank argv = 0%Z) /\
      ((e mod 10 = 0)%nat /\ local_rank argv = 0%Z ->
       exists pre post,
         seg = pre ++ EvSave (model_filepath argv) :: post /\
         In EvEvalMode pre /\
         Forall (fun ev => is_save ev = false) (pre ++ post)) /\
      (~ ((e mod 10 = 0)%nat /\ local_rank argv = 0%Z) ->
       Forall (fun ev => is_save ev = false /\ is_eval_mode ev = false /\
                         is_test_scalar ev = false) seg).
Proof.
  intros Heval Hbatch Hres Htest Htrain.
  destruct (main_training_run B argv env Heval Hbatch Hres Htest Htrain)
    as (setup & segs & s' & Hmain & Htrace & Hsetup & Hlen & Hseg).
  exists setup, segs. rewrite Hmain. simpl.
  split; [reflexivity|]. split; [exact Htrace|].
  split.
  { eapply Forall_impl; [exact Hsetup|]. now intros [] Hev. }
  split; [exact Hlen|].
  intros e seg Hnth. destruct (Hseg e seg Hnth) as [si ->].
  destruct (saves_in argv e) eqn:Hsave.
  - destruct (epoch_events_saving B argv env e si Hsave)
      as (pre & post & -> & Hpre & Hall).
    pose proof (proj1 (saves_in_spec argv e) Hsave) as Hcond.
    split; [reflexivity|].
    split.
    { simpl. apply Forall_app in Hall as [Ha Hb]. apply Forall_app.
      split; [|constructor; [reflexivity|]];
        (eapply Forall_impl; [eassumption|]; now intros ev [_ Hev]). }
    split.
    { split; [intros _; exact Hcond|]. intros _.
      exists (model_filepath argv). right. apply in_or_app. right. now left. }
    split.
    { intros _.
      exists (EvPrint (MsgTraining (local_rank argv) e) :: pre), post.
      split; [reflexivity|]. split; [now right|].
      simpl. constructor; [reflexivity|].
      eapply Forall_impl; [exact Hall|]. now intros ev [Hev _]. }
    intros Hnot. contradiction.
  - destruct (epoch_events_quiet B argv env e si Hsave)
      as (rest & -> & Hall).
    assert (Hcond : ~ ((e mod 10 = 0)%nat /\ local_rank argv = 0%Z)).
    { intros Hc. apply saves_in_spec in Hc. congruence. }
    split; [reflexivity|].
    split.
    { simpl. eapply Forall_impl; [exact Hall|].
      now intros ev (_ & _ & _ & Hev). }
    split.
    { split; [|intros Hc; contradiction].
      intros [path [Hin|Hin]]; [discriminate|].
      rewrite List.Forall_forall in Hall. destruct (Hall _ Hin) as [Hs _].
      discriminate. }
    split; [intros Hc; contradiction|].
    intros _. constructor; [repeat split|].
    eapply Forall_impl; [exact Hall|]. now intros ev (H1 & H2 & H3 & _).
Qed.

Lemma periodic_checkpoint_schedule_witness :
  exists (setup : list Event) (segs : list (list Event)),
    fst (main Toy.backend Toy.argv Toy.env) = Done tt /\
    st_trace (snd (main Toy.backend Toy.argv Toy.env))
    = setup ++ concat segs ++ [EvWriterClose] /\
    length segs = 2%nat /\
    (exists seg path, nth_error segs 0 = Some seg /\ In (EvSave path) seg) /\
    (exists seg, nth_error segs 1 = Some seg /\
                 Forall (fun ev => is_save ev = false /\
                                   is_eval_mode ev = false /\
                                   is_test_scalar ev = false) seg).
Proof.
  destruct (periodic_checkpoint_schedule Toy.backend Toy.argv Toy.env)
    as (setup & segs & Hdone & Htrace & _ & Hlen & Hseg);
    [reflexivity | reflexivity | intros H; discriminate H | discriminate
    | intros e; discriminate | ].
  exists setup, segs.
  destruct segs as [|seg0 [|seg1 segs]]; try discriminate Hlen.
  repeat (split; [assumption|]). split.
  - destruct (Hseg 0%nat seg0 eq_refl) as (_ & _ & [_ Hsave] & _).
    destruct Hsave as [path Hin]; [split; reflexivity|].
    exists seg0, path. auto.
  - destruct (Hseg 1%nat seg1 eq_refl) as (_ & _ & _ & _ & Hquiet).
    exists seg1. split; [reflexivity|]. apply Hquiet.
    intros [Hmod _]. discriminate Hmod.
Defined.

(** C4: with [--eval], whatever happens, the run takes no optimizer step,
    writes no checkpoint and prints no training line: the trace has no
    such event, the step count and the optimizer are as created, the files
    are those of the environment, the parameters are those the model was
    built with or those a resume has loaded, and the run never returns
    from the training loop.  When the set-up and the evaluation meet no
    fault, the run ends by [exit()], with status 0, right after printing
    the accuracy it has computed. *)
Theorem eval_flag_only_evaluates (B : Backend) (argv : Args) (env : Env B) :
  eval argv = true ->
  let r := main B argv env in
  let final := snd r in
  Forall (fun ev => is_batch_event ev = false /\ is_save ev = false /\
                    is_training_print ev = false) (st_trace final) /\
  st_steps final = O /\
  st_opt final = sgd_init B (learning_rate argv) /\
  st_files final = env_files env /\
  (st_params final = st_params (initial_state B argv env) \/
   exists ck, resume argv = true /\
              env_files env !! model_filepath argv = Some ck /\
              st_params final = ck_state ck) /\
  (exists h, fst r = Stop h) /\
  (resume_ok B argv env -> (0 < batch_size argv)%Z -> env_test env <> [] ->
   fst r = Stop (Exit 0) /\
   exists setup,
     Forall (fun ev => is_setup ev = true) setup /\
     st_trace final
     = setup
       ++ [EvEvalMode;
           EvPrint (MsgTestAccuracy
                      (Aggregate.accuracy (forward B false (st_params final))
                         (batches (test_loader B env))))]).
Proof.
  intros Heval r final.
  destruct (initial_state_trace B argv env) as (Ht0 & Hf0 & Hs0 & Ho0).
  destruct (resume_checkpoint_frame B argv (initial_state B argv env))
    as (r1 & s1 & tl1 & Hrun1 & Ho1 & Hs1 & Hf1 & Ht1 & Hsetup1 & Hp1).
  rewrite Ht0 in Ht1. simpl in Ht1. rewrite Hf0 in Hp1.
  assert (Hquiet1 : Forall (fun ev => is_batch_event ev = false /\
                                      is_save ev = false /\
                                      is_training_print ev = false) tl1).
  { eapply Forall_impl; [exact Hsetup1|]. now intros [] Hev. }
  destruct r1 as [[]|h1].
  - destruct (train_or_eval_eval B argv env s1 Heval)
      as (h & s2 & tl & Hrun2 & Hp2 & Ho2 & Hs2 & Hf2 & Ht2 & Hquiet2 & Hok).
    assert (Hmain : r = (Stop h, s2)).
    { subst r. unfold main, main_body.
      erewrite bind_done by exact Hrun1. exact Hrun2. }
    subst final. rewrite Hmain. simpl.
    rewrite Ht2, Ht1, Hs2, Hs1, Hs0, Ho2, Ho1, Ho0, Hf2, Hf1, Hf0, Hp2.
    split; [apply Forall_app; split; assumption|].
    repeat (split; [solve [auto | eauto]|]).
    intros Hres Hbatch Htest. destruct (Hok Hbatch Htest) as [-> ->].
    split; [reflexivity|].
    exists (tl1 ++ [EvWriterOpen]). split.
    + apply Forall_app. split; [exact Hsetup1|repeat constructor].
    + now rewrite <- app_assoc.
  - assert (Hmain : r = (Stop h1, s1)).
    { subst r. unfold main, main_body.
      erewrite bind_stop by exact Hrun1. reflexivity. }
    subst final. rewrite Hmain. simpl.
    rewrite Ht1, Hs1, Hs0, Ho1, Ho0, Hf1, Hf0.
    split; [exact Hquiet1|].
    repeat (split; [solve [auto | eauto]|]).
    intros Hres Hbatch Htest. exfalso.
    destruct (resume_checkpoint_ok B argv env Hres) as (s1' & Hrun1' & _).
    rewrite Hrun1 in Hrun1'. discriminate.
Qed.

Lemma eval_flag_only_evaluates_witness :
  fst (main Toy.backend Toy.argv_eval Toy.env) = Stop (Exit 0) /\
  st_files (snd (main Toy.backend Toy.argv_eval Toy.env)) = ∅.
Proof.
  destruct (eval_flag_only_evaluates Toy.backend Toy.argv_eval Toy.env
              eq_refl)
    as (_ & _ & _ & Hfiles & _ & _ & Hok).
  split; [|exact Hfiles].
  apply Hok; [intros H; discriminate H | reflexivity | discriminate].
Defined.

(** C5: under [--score OE], the loss of every batch is the base loss plus
    half the opposite of the mean, over the rows from index
    [len(inputs[0])] on, of the mean logit of the row minus its
    log-sum-exp. *)
Theorem outlier_exposure_term (B : Backend) (argv : Args) (x0 : Image)
    (rest : list Image) (labels : list nat) (acc : Scalar) (s : State B) :
  score argv = "OE"%string ->
  let k := length x0 in
  (forall outputs loss,
     regularized_loss (score argv) (x0 :: rest) outputs loss
     = inr (sadd loss (Formula.outlier_exposure k outputs))) /\
  (let outputs := forward B (st_training s) (st_params s) (x0 :: rest) in
   fst (train_batch B argv acc (x0 :: rest, labels) s)
   = Done (sadd acc
             (sadd (criterion B outputs labels)
                (Formula.outlier_exposure k outputs)))).
Proof.
  intros Hscore k.
  assert (Hreg : forall outputs loss,
             regularized_loss (score argv) (x0 :: rest) outputs loss
             = inr (sadd loss (Formula.outlier_exposure k outputs))).
  { intros outputs loss.
    now rewrite Hscore, regularized_loss_OE, oe_term_formula. }
  split; [exact Hreg|].
  intros outputs. apply train_batch_fst. apply Hreg.
Qed.

Lemma outlier_exposure_term_witness :
  regularized_loss "OE"
    [Toy.image; Toy.image; Toy.image; Toy.image; Toy.image]
    Toy.outputs5 (Some 1)
  = inr (Some (1 + 0.5 * ln 2)).
Proof.
  destruct (outlier_exposure_term Toy.backend (Toy.argv_score "OE")
              Toy.image [Toy.image; Toy.image; Toy.image; Toy.image] []
              (Some 0) Toy.state0 eq_refl)
    as (Hloss & _).
  refine (eq_trans (Hloss Toy.outputs5 (Some 1)) _).
  change (length Toy.image) with 3%nat.
  now rewrite outlier_exposure_outputs5.
Defined.

(** C6: in a training run that meets no fault, whatever the local rank,
    the segment of every epoch [e] ends with the scalar tagged
    [Loss/train] at step [e], whose value is the sum of the losses of the
    batches of the epoch divided by the length of the train sampler, and
    holds no other train scalar. *)
Theorem train_loss_reported_every_epoch (B : Backend) (argv : Args)
    (env : Env B) :
  eval argv = false -> (0 < batch_size argv)%Z -> resume_ok B argv env ->
  env_test env <> [] -> (forall e, env_train env e <> []) ->
  exists (setup : list Event) (segs : list (list Event)),
    st_trace (snd (main B argv env))
    = setup ++ concat segs ++ [EvWriterClose] /\
    Forall (fun ev => is_train_scalar ev = false) setup /\
    length segs = Z.to_nat (num_epochs argv) /\
    forall e seg, nth_error segs e = Some seg ->
      exists (si : State B) (pre : list Event),
        let losses :=
          training_losses B (score argv) (st_steps si) (st_params si)
            (st_opt si) (batches (train_loader B argv env e)) in
        seg = pre ++ [EvScalar "Loss/train"
                        (sdiv_nat (Aggregate.ssum losses)
                           (length (env_train env e))) e] /\
        length losses = length (batches (train_loader B argv env e)) /\
        hd_error seg = Some (EvPrint (MsgTraining (local_rank argv) e)) /\
        Forall (fun ev => is_train_scalar ev = false) pre.
Proof.
  intros Heval Hbatch Hres Htest Htrain.
  destruct (main_training_run B argv env Heval Hbatch Hres Htest Htrain)
    as (setup & segs & s' & Hmain & Htrace & Hsetup & Hlen & Hseg).
  exists setup, segs. rewrite Hmain. simpl.
  split; [exact Htrace|].
  split.
  { eapply Forall_impl; [exact Hsetup|]. now intros [] Hev. }
  split; [exact Hlen|].
  intros e seg Hnth. destruct (Hseg e seg Hnth) as [si ->].
  exists si. eexists. cbv zeta.
  split.
  { unfold epoch_events, epoch_train_loss, sampler_len, train_loader.
    simpl dl_samples. rewrite !app_assoc. reflexivity. }
  split; [apply training_losses_length|].
  split; [reflexivity|].
  repeat (apply Forall_app; split); try (repeat constructor).
  - destruct (saves_in argv e);
      [apply periodic_events_no_train_scalar | constructor].
  - eapply Forall_batch_event; [|apply loop_events_batch].
    now intros [] Hev.
Qed.

Lemma train_loss_reported_every_epoch_witness :
  exists (setup : list Event) (segs : list (list Event)),
    st_trace (snd (main Toy.backend Toy.argv_resume Toy.env_saved))
    = setup ++ concat segs ++ [EvWriterClose] /\
    length segs = 2%nat.
Proof.
  destruct (train_loss_reported_every_epoch Toy.backend Toy.argv_resume
              Toy.env_saved)
    as (setup & segs & Htrace & _ & Hlen & _);
    [reflexivity | reflexivity | | discriminate | intros e; discriminate | ].
  - intros _. exists (@mkCheckpoint Toy.backend (Cuda 0) 5%nat).
    split; reflexivity.
  - exists setup, segs. auto.
Defined.

(** C7: with [--resume], a checkpoint file that is missing stops the run
    by [FileNotFoundError] before anything else is done, and so does, by
    [RuntimeError], a checkpoint the model does not accept; a checkpoint
    that is there and fits is loaded before anything else: what follows
    starts from its parameters, and a checkpoint stored from [cuda:0] is
    read onto the device of the local rank. *)
Theorem resume_loads_or_fails (B : Backend) (argv : Args) (env : Env B) :
  resume argv = true ->
  let s0 := initial_state B argv env in
  let path := model_filepath argv in
  (env_files env !! path = None ->
   main B argv env = (Stop (Raise FileNotFoundError), s0) /\
   st_trace s0 = []) /\
  (forall ck, env_files env !! path = Some ck ->
     loadable B (st_params s0) (ck_state ck) = false ->
     fst (main B argv env) = Stop (Raise RuntimeError) /\
     st_params (snd (main B argv env)) = st_params s0 /\
     st_steps (snd (main B argv env)) = O) /\
  (forall ck, env_files env !! path = Some ck ->
     loadable B (st_params s0) (ck_state ck) = true ->
     main B argv env
     = train_or_eval B argv env
         {| st_rng := st_rng s0; st_params := ck_state ck;
            st_opt := st_opt s0; st_training := true; st_steps := O;
            st_files := env_files env;
            st_trace :=
              [EvLoad path
                 (map_location_get [(Cuda 0, Cuda (local_rank argv))]
                    (ck_device ck))] |}) /\
  map_location_get [(Cuda 0, Cuda (local_rank argv))] (Cuda 0)
  = Cuda (local_rank argv).
Proof.
  intros Hres s0 path.
  destruct (initial_state_trace B argv env) as (Ht0 & Hf0 & Hs0 & Ho0).
  fold s0 in Ht0, Hf0, Hs0, Ho0.
  assert (Htr0 : st_training s0 = true).
  { subst s0. unfold initial_state. now destruct (resnet50 B _). }
  split; [|split; [|split; [|reflexivity]]].
  - intros Hnone. split; [|exact Ht0].
    unfold main, main_body. rewrite <- Hf0 in Hnone.
    erewrite bind_stop
      by exact (resume_checkpoint_missing B argv s0 Hres Hnone).
    reflexivity.
  - intros ck Hfile Hload. rewrite <- Hf0 in Hfile.
    unfold main, main_body.
    erewrite bind_stop
      by exact (resume_checkpoint_refused B argv s0 ck Hres Hfile Hload).
    simpl. auto.
  - intros ck Hfile Hload. rewrite <- Hf0 in Hfile.
    unfold main, main_body.
    erewrite bind_done
      by exact (resume_checkpoint_loaded B argv s0 ck Hres Hfile Hload).
    now rewrite Ht0, Hf0, Hs0, Htr0.
Qed.

Lemma resume_loads_or_fails_witness :
  main Toy.backend Toy.argv_resume Toy.env
  = (Stop (Raise FileNotFoundError),
     initial_state Toy.backend Toy.argv_resume Toy.env) /\
  fst (main Toy.backend Toy.argv_resume Toy.env_foreign)
  = Stop (Raise RuntimeError) /\
  main Toy.backend Toy.argv_resume Toy.env_saved
  = train_or_eval Toy.backend Toy.argv_resume Toy.env_saved
      (@mkState Toy.backend (mkRng 1 true false 0 0) 5%nat tt true O
         (env_files Toy.env_saved)
         [EvLoad "saved_models/resnet_distributed.pth" (Cuda 1)]).
Proof.
  split; [|split].
  - destruct (resume_loads_or_fails Toy.backend Toy.argv_resume Toy.env
                eq_refl) as (Hmissing & _).
    apply Hmissing. reflexivity.
  - destruct (resume_loads_or_fails Toy.backend Toy.argv_resume
                Toy.env_foreign eq_refl) as (_ & Hrefused & _).
    apply (Hrefused (@mkCheckpoint Toy.backend (Cuda 0) 12%nat));
      reflexivity.
  - destruct (resume_loads_or_fails Toy.backend Toy.argv_resume
                Toy.env_saved eq_refl) as (_ & _ & Hloaded & _).
    apply (Hloaded (@mkCheckpoint Toy.backend (Cuda 0) 5%nat));
      reflexivity.
Defined.

(** C8 (amended): under [--score energy] and [--score OE], a file name
    with at most one dot is kept up to its dot and ends in [_energy.pth]
    and [_OE.pth]: the extension is always set to [.pth], so the name is
    the configured one with the suffix put before its extension if and only
    if the configured name ends in [.pth]; it is not for a name without a
    dot.  The checkpoint path is [os.path.join] of the model directory and
    that name, which is [<model_dir>/<name>], for every such configured
    name, when the directory is not empty and has no trailing slash and the
    configured name does not start with a slash; it is the path of the
    layout if and only if the configured name ends in [.pth].  For every
    file name and directory, the paths of a run without regularisation, of
    an [energy] run and of an [OE] run differ from one another. *)
Theorem checkpoint_path_by_mode (dir stem ext mode : string) :
  has_dot stem = false -> has_dot ext = false ->
  mode = "energy" \/ mode = "OE" ->
  let suffix := Layout.mode_suffix mode in
  checkpoint_filename mode (stem +:+ "." +:+ ext)
    = stem +:+ suffix +:+ ".pth" /\
  checkpoint_filename mode stem = stem +:+ suffix +:+ ".pth" /\
  checkpoint_filename mode (stem +:+ ".pth")
    = Layout.suffixed (stem +:+ ".pth") suffix /\
  (checkpoint_filename mode (stem +:+ "." +:+ ext)
     = Layout.suffixed (stem +:+ "." +:+ ext) suffix <-> ext = "pth") /\
  checkpoint_filename mode stem <> Layout.suffixed stem suffix /\
  (dir <> "" -> Py.endswith_sep dir = false ->
   Py.startswith_sep stem = false ->
   Py.os_path_join dir (checkpoint_filename mode (stem +:+ "." +:+ ext))
     = dir +:+ "/" +:+ stem +:+ suffix +:+ ".pth" /\
   Py.os_path_join dir (checkpoint_filename mode stem)
     = dir +:+ "/" +:+ stem +:+ suffix +:+ ".pth" /\
   Py.os_path_join dir (checkpoint_filename mode (stem +:+ ".pth"))
     = Layout.checkpoint_path dir (stem +:+ ".pth") mode /\
   (Py.os_path_join dir (checkpoint_filename mode (stem +:+ "." +:+ ext))
      = Layout.checkpoint_path dir (stem +:+ "." +:+ ext) mode
    <-> ext = "pth")) /\
  (forall name plain : string, plain <> "energy" -> plain <> "OE" ->
   let path m := Py.os_path_join dir (checkpoint_filename m name) in
   path plain <> path "energy" /\ path plain <> path "OE" /\
   path "energy" <> path "OE").
Proof.
  intros Hstem Hext Hmode suffix.
  assert (Hdot : forall rest,
            checkpoint_filename mode (stem +:+ String "." rest)
            = stem +:+ suffix +:+ ".pth").
  { intros rest. destruct Hmode as [-> | ->];
      rewrite ?checkpoint_filename_energy, ?checkpoint_filename_OE,
        split_on_fst_stem by exact Hstem; reflexivity. }
  assert (Hnodot : checkpoint_filename mode stem
                   = stem +:+ suffix +:+ ".pth").
  { destruct Hmode as [-> | ->];
      rewrite ?checkpoint_filename_energy, ?checkpoint_filename_OE,
        split_on_no_dot by exact Hstem; reflexivity. }
  assert (Hsuffixed : forall e, has_dot e = false ->
            Layout.suffixed (stem +:+ String "." e) suffix
            = stem +:+ suffix +:+ String "." e).
  { intros e He. unfold Layout.suffixed.
    now rewrite (splitext_stem_ext stem e Hstem He). }
  assert (Hkept : forall e, has_dot e = false ->
            stem +:+ suffix +:+ ".pth" = stem +:+ suffix +:+ String "." e
            <-> e = "pth").
  { intros e He. split; [|now intros ->].
    intros Heq. do 2 apply append_inj_l in Heq. congruence. }
  assert (Hrel : Py.startswith_sep stem = false ->
            Py.startswith_sep (stem +:+ suffix +:+ ".pth") = false).
  { intros Hs. destruct stem; [|exact Hs].
    subst suffix. destruct Hmode as [-> | ->]; reflexivity. }
  assert (Hdot' : checkpoint_filename mode (stem +:+ "." +:+ ext)
                  = stem +:+ suffix +:+ ".pth") by exact (Hdot ext).
  assert (Hsuffixed' : Layout.suffixed (stem +:+ "." +:+ ext) suffix
                       = stem +:+ suffix +:+ String "." ext)
    by exact (Hsuffixed ext Hext).
  split; [exact Hdot'|].
  split; [exact Hnodot|].
  split; [now rewrite (Hsuffixed "pth" eq_refl); exact (Hdot "pth")|].
  split.
  { rewrite Hdot', Hsuffixed'. exact (Hkept ext Hext). }
  split.
  { rewrite Hnodot. unfold Layout.suffixed.
    rewrite (splitext_no_dot stem Hstem). intros Heq.
    apply append_inj_l in Heq.
    change (suffix +:+ ".pth" = suffix +:+ "") in Heq.
    apply append_inj_l in Heq. discriminate. }
  split.
  { intros Hdir Hend Hs. specialize (Hrel Hs).
    assert (Hjoin : Py.os_path_join dir (stem +:+ suffix +:+ ".pth")
                    = dir +:+ "/" +:+ stem +:+ suffix +:+ ".pth")
      by now apply os_path_join_relative.
    split; [now rewrite Hdot'|].
    split; [now rewrite Hnodot|].
    split.
    { unfold Layout.checkpoint_path. fold suffix.
      now rewrite (Hsuffixed "pth" eq_refl), (Hdot "pth"). }
    unfold Layout.checkpoint_path. fold suffix.
    rewrite Hdot', Hsuffixed', Hjoin.
    rewrite <- (Hkept ext Hext). split; [|now intros ->].
    intros Heq. now do 2 apply append_inj_l in Heq. }
  intros name plain He Ho path. subst path. cbv beta.
  rewrite (checkpoint_filename_plain plain name He Ho),
    checkpoint_filename_energy, checkpoint_filename_OE.
  repeat split; intros Heq; apply os_path_join_inj in Heq;
    try (symmetry; now apply startswith_sep_stem).
  - revert Heq. apply name_not_suffixed; [intros r|]; discriminate.
  - revert Heq. apply name_not_suffixed; [intros r|]; discriminate.
  - apply append_inj_l in Heq. discriminate.
  - rewrite !startswith_sep_stem by reflexivity. reflexivity.
Qed.

Lemma checkpoint_path_by_mode_witness :
  checkpoint_filename "energy" "resnet_distributed.pth"
    = "resnet_distributed_energy.pth"%string /\
  checkpoint_filename "energy" "resnet_distributed"
    <> Layout.suffixed "resnet_distributed" "_energy" /\
  Py.os_path_join "saved_models"
    (checkpoint_filename "energy" "resnet_distributed")
    = "saved_models/resnet_distributed_energy.pth"%string /\
  Py.os_path_join "saved_models"
    (checkpoint_filename "energy" "resnet_distributed.pth")
    = Layout.checkpoint_path "saved_models" "resnet_distributed.pth" "energy" /\
  Py.os_path_join "saved_models"
    (checkpoint_filename "None" "resnet_distributed.pth")
  <> Py.os_path_join "saved_models"
       (checkpoint_filename "energy" "resnet_distributed.pth").
Proof.
  destruct (checkpoint_path_by_mode "saved_models" "resnet_distributed" "pth"
              "energy" eq_refl eq_refl (or_introl eq_refl))
    as (H1 & _ & _ & _ & H5 & H6 & H7).
  destruct H6 as (_ & P2 & P3 & _); [discriminate | reflexivity..|].
  split; [exact H1|].
  split; [exact H5|].
  split; [exact P2|].
  split; [exact P3|].
  destruct (H7 "resnet_distributed.pth"%string "None"%string) as (Hd & _);
    [discriminate | discriminate | exact Hd].
Defined.

(** The extension is not kept: [model.pt] under [energy] is stored as
    [model_energy.pth], not as [model_energy.pt]. *)
Lemma checkpoint_path_extension_counterexample :
  model_filepath
    {| local_rank := 0; num_epochs := 250; batch_size := 64;
       learning_rate := 0.1; random_seed := 0;
       model_dir := "saved_models"; model_filename := "model.pt";
       resume := false; score := "energy"; eval := false |}
  = "saved_models/model_energy.pth"%string /\
  model_filepath
    {| local_rank := 0; num_epochs := 250; batch_size := 64;
       learning_rate := 0.1; random_seed := 0;
       model_dir := "saved_models"; model_filename := "model.pt";
       resume := false; score := "energy"; eval := false |}
  <> Layout.checkpoint_path "saved_models" "model.pt" "energy".
Proof. split; [reflexivity | discriminate]. Qed.

(** C9: the parameters the model is built with, and the state every
    generator is left in, depend on the seed alone: two workers, or two
    runs, that are given the same seed build the same model, whatever
    their rank, their other flags and the ambient state of their
    generators. *)
Theorem initial_parameters_deterministic (B : Backend) (argv1 argv2 : Args)
    (env1 env2 : Env B) :
  random_seed argv1 = random_seed argv2 ->
  st_params (initial_state B argv1 env1)
  = st_params (initial_state B argv2 env2) /\
  st_rng (initial_state B argv1 env1) = st_rng (initial_state B argv2 env2) /\
  cudnn_deterministic (st_rng (initial_state B argv1 env1)) = true /\
  cudnn_benchmark (st_rng (initial_state B argv1 env1)) = false.
Proof.
  intros Hseed. unfold initial_state, set_random_seeds. simpl.
  rewrite Hseed. destruct (resnet50 B (random_seed argv2)). simpl. auto.
Qed.

Lemma initial_parameters_deterministic_witness :
  st_params (initial_state Toy.backend Toy.argv Toy.env)
  = st_params (initial_state Toy.backend Toy.argv_eval Toy.env_saved).
Proof.
  destruct (initial_parameters_deterministic Toy.backend Toy.argv
              Toy.argv_eval Toy.env Toy.env_saved eq_refl) as [H _].
  exact H.
Defined.

(** C10: a [--score] value that is neither [energy] nor [OE] leaves the
    checkpoint file name as configured, and in every batch the loss is the
    base loss: nothing is raised and nothing is added. *)
Theorem unrecognized_score_is_plain (B : Backend) (argv : Args) :
  score argv <> "energy"%string -> score argv <> "OE"%string ->
  checkpoint_filename (score argv) (model_filename argv)
  = model_filename argv /\
  model_filepath argv
  = Py.os_path_join (model_dir argv) (model_filename argv) /\
  (forall inputs outputs loss,
     regularized_loss (score argv) inputs outputs loss = inr loss) /\
  (forall acc inputs labels (s : State B),
     fst (train_batch B argv acc (inputs, labels) s)
     = Done (sadd acc
               (criterion B (forward B (st_training s) (st_params s) inputs)
                  labels))).
Proof.
  intros He Ho.
  assert (Hreg : forall inputs outputs loss,
             regularized_loss (score argv) inputs outputs loss = inr loss).
  { intros inputs outputs loss. unfold regularized_loss.
    destruct (String.eqb_spec (score argv) "energy"); [contradiction|].
    destruct (String.eqb_spec (score argv) "OE"); [contradiction|].
    reflexivity. }
  split; [now apply checkpoint_filename_plain|].
  split; [unfold model_filepath; now rewrite checkpoint_filename_plain|].
  split; [exact Hreg|].
  intros acc inputs labels s.
  unfold train_batch, model_call, bind, log, get, ret. simpl.
  rewrite Hreg. simpl. unfold backward_and_step, bind, log. simpl.
  now destruct (sgd_step B _ _ _ _ _).
Qed.

Lemma unrecognized_score_is_plain_witness :
  model_filepath Toy.argv = "saved_models/resnet_distributed.pth"%string /\
  regularized_loss "None" [] [] (Some 1) = inr (Some 1).
Proof.
  destruct (unrecognized_score_is_plain Toy.backend Toy.argv)
    as (_ & Hpath & Hreg & _); [discriminate | discriminate | ].
  split; [rewrite Hpath; reflexivity | exact (Hreg [] [] (Some 1))].
Defined.

(** * Further properties of the code *)

(** X1: [evaluate] changes nothing of the model but its mode: for every
    loader, empty or not, the parameters, the optimizer, the step count
    and the checkpoint files are those it found, the model is left in
    evaluation mode, the outcome does not depend on the writer, and the
    trace gets the switch to evaluation mode followed only by the scalars
    written through the writer, tagged [Loss/test] or [Accuracy/test],
    none of them without a writer. *)
Theorem evaluate_keeps_model (B : Backend) (dl : DataLoader) (epoch : nat)
    (crit : list Logits -> list nat -> Scalar)
    (writer : option SummaryWriter) (s : State B) :
  let s' := snd (evaluate B dl epoch crit writer s) in
  st_params s' = st_params s /\ st_opt s' = st_opt s /\
  st_steps s' = st_steps s /\ st_files s' = st_files s /\
  st_training s' = false /\
  fst (evaluate B dl epoch crit writer s)
  = fst (evaluate B dl epoch crit None s) /\
  exists tl,
    st_trace s' = st_trace s ++ EvEvalMode :: tl /\
    Forall (fun ev => is_test_scalar ev = true) tl /\
    (writer = None -> tl = []).
Proof.
  destruct (dl_samples dl) as [|x l] eqn:Hdl.
  - rewrite !(evaluate_empty B dl epoch crit _ s Hdl). simpl.
    repeat (split; [reflexivity|]). exists []. repeat split. constructor.
  - assert (Hne : dl_samples dl <> []) by (rewrite Hdl; discriminate).
    rewrite !(evaluate_run B dl epoch crit _ s Hne). simpl.
    repeat (split; [reflexivity|]). eexists. split; [reflexivity|].
    destruct writer; simpl; split; try (repeat constructor); try reflexivity.
    discriminate.
Qed.

Lemma evaluate_keeps_model_witness :
  st_params (snd (evaluate Toy.backend Toy.loader 0 (criterion Toy.backend)
                    (Some Writer) Toy.state0))
  = st_params Toy.state0 /\
  st_training (snd (evaluate Toy.backend Toy.loader 0 (criterion Toy.backend)
                      (Some Writer) Toy.state0))
  = false.
Proof.
  destruct (evaluate_keeps_model Toy.backend Toy.loader 0
              (criterion Toy.backend) (Some Writer) Toy.state0)
    as (Hp & _ & _ & _ & Ht & _).
  split; assumption.
Defined.

(** X2: [evaluate] raises [ZeroDivisionError] exactly on a loader with no
    sample, and returns an accuracy on every other; on the empty loader
    it has switched the model to evaluation mode and written no scalar,
    even when it was given a writer. *)
Theorem evaluate_fails_iff_empty (B : Backend) (dl : DataLoader)
    (epoch : nat) (crit : list Logits -> list nat -> Scalar)
    (writer : option SummaryWriter) (s : State B) :
  (dl_samples dl = [] <->
   fst (evaluate B dl epoch crit writer s) = Stop (Raise ZeroDivisionError)) /\
  (dl_samples dl <> [] <->
   exists accuracy, fst (evaluate B dl epoch crit writer s) = Done accuracy) /\
  (dl_samples dl = [] ->
   st_trace (snd (evaluate B dl epoch crit writer s))
   = st_trace s ++ [EvEvalMode]).
Proof.
  destruct (dl_samples dl) as [|x l] eqn:Hdl.
  - rewrite (evaluate_empty B dl epoch crit writer s Hdl). simpl.
    repeat split; auto; try congruence.
    intros [a Ha]. discriminate.
  - assert (Hne : dl_samples dl <> []) by (rewrite Hdl; discriminate).
    rewrite (evaluate_run B dl epoch crit writer s Hne). simpl.
    repeat split; try discriminate; eauto.
Qed.

Lemma evaluate_fails_iff_empty_witness :
  fst (evaluate Toy.backend Toy.loader_empty 0 (criterion Toy.backend)
         (Some Writer) Toy.state0)
  = Stop (Raise ZeroDivisionError) /\
  st_trace (snd (evaluate Toy.backend Toy.loader_empty 0
                   (criterion Toy.backend) (Some Writer) Toy.state0))
  = [EvEvalMode].
Proof.
  destruct (evaluate_fails_iff_empty Toy.backend Toy.loader_empty 0
              (criterion Toy.backend) (Some Writer) Toy.state0)
    as ([Hfail _] & _ & Htrace).
  split; [apply Hfail; reflexivity | apply Htrace; reflexivity].
Defined.

Lemma filter_length_le {A : Type} (f : A -> bool) (l : list A) :
  (length (List.filter f l) <= length l)%nat.
Proof.
  induction l as [|a l IH]; simpl; [lia|]. destruct (f a); simpl; lia.
Qed.

(** X3: the accuracy [evaluate] returns on a loader that is not empty
    lies between 0 and 1. *)
Theorem evaluate_accuracy_bounds (B : Backend) (dl : DataLoader)
    (epoch : nat) (crit : list Logits -> list nat -> Scalar)
    (writer : option SummaryWriter) (s : State B) :
  dl_samples dl <> [] ->
  exists accuracy,
    fst (evaluate B dl epoch crit writer s) = Done accuracy /\
    0 <= accuracy <= 1.
Proof.
  intros Hne. rewrite (evaluate_run B dl epoch crit writer s Hne). simpl.
  eexists. split; [reflexivity|]. unfold Aggregate.accuracy.
  pose proof (examples_batches B false (st_params s) dl) as Hlen.
  assert (Hpos : (0 < sampler_len dl)%nat).
  { unfold sampler_len. destruct (dl_samples dl); [contradiction|simpl; lia]. }
  rewrite Hlen.
  assert (Hle : (Aggregate.n_correct (forward B false (st_params s))
                   (batches dl) <= sampler_len dl)%nat).
  { rewrite <- Hlen. apply filter_length_le. }
  apply lt_INR in Hpos. apply le_INR in Hle. simpl in Hpos.
  pose proof (pos_INR (Aggregate.n_correct (forward B false (st_params s))
                         (batches dl))) as H0.
  split.
  - apply Rmult_le_pos; [exact H0|]. left. now apply Rinv_0_lt_compat.
  - apply (Rmult_le_reg_r (INR (sampler_len dl))); [exact Hpos|].
    unfold Rdiv. rewrite Rmult_assoc, Rinv_l by lra. lra.
Qed.

Lemma evaluate_accuracy_bounds_witness :
  exists accuracy,
    fst (evaluate Toy.backend Toy.loader 0 (criterion Toy.backend) None
           Toy.state0)
    = Done accuracy /\
    0 <= accuracy <= 1.
Proof.
  apply (evaluate_accuracy_bounds Toy.backend Toy.loader 0
           (criterion Toy.backend) None Toy.state0).
  discriminate.
Defined.

Lemma argmax_from_spec (l pre : list R) (best : R) (besti : nat) :
  (besti < length pre)%nat -> nth besti pre 0 = best ->
  (forall x, In x pre -> x <= best) ->
  (forall j, (j < besti)%nat -> nth j pre 0 < best) ->
  let i := argmax_from best besti (length pre) l in
  (i < length (pre ++ l))%nat /\
  (forall x, In x (pre ++ l) -> x <= nth i (pre ++ l) 0) /\
  (forall j, (j < i)%nat -> nth j (pre ++ l) 0 < nth i (pre ++ l) 0).
Proof.
  revert pre best besti.
  induction l as [|x l IH]; intros pre best besti Hlt Hnth Hmax Hfirst; simpl.
  - rewrite app_nil_r, Hnth. auto.
  - assert (Hlen : length (pre ++ [x]) = S (length pre))
      by (rewrite length_app; simpl; lia).
    assert (Happ : pre ++ x :: l = (pre ++ [x]) ++ l)
      by (now rewrite <- app_assoc).
    rewrite Happ, <- Hlen.
    destruct (Rlt_dec best x) as [Hbx|Hbx].
    + apply IH.
      * lia.
      * rewrite List.app_nth2 by lia. now rewrite Nat.sub_diag.
      * intros y Hy. apply in_app_or in Hy as [Hy|[<-|[]]]; [|lra].
        specialize (Hmax y Hy). lra.
      * intros j Hj. rewrite List.app_nth1 by lia.
        assert (Hin : In (nth j pre 0) pre) by (apply nth_In; lia).
        specialize (Hmax _ Hin). lra.
    + apply IH.
      * lia.
      * now rewrite List.app_nth1 by lia.
      * intros y Hy. apply in_app_or in Hy as [Hy|[<-|[]]]; [auto|lra].
      * intros j Hj. rewrite List.app_nth1 by lia. auto.
Qed.

(** X4: the predicted class of a row is the index of a class, its logit
    is at least every logit of the row, and every class before it has a
    strictly smaller logit: ties go to the first maximum. *)
Theorem argmax_first_maximum (r : Logits) :
  let i := argmax r in
  (i < length (classes r))%nat /\
  (forall x, In x (classes r) -> x <= nth i (classes r) 0) /\
  (forall j, (j < i)%nat -> nth j (classes r) 0 < nth i (classes r) 0).
Proof.
  unfold argmax, classes.
  apply (argmax_from_spec (logits_rest r) [logit0 r] (logit0 r) 0%nat).
  - simpl. lia.
  - reflexivity.
  - intros x [<-|[]]. lra.
  - intros j Hj. lia.
Qed.

Lemma argmax_first_maximum_witness :
  Nat.lt (argmax (mkLogits 1 [0])) 2 /\
  0 <= nth (argmax (mkLogits 1 [0])) [1; 0] 0.
Proof.
  destruct (argmax_first_maximum (mkLogits 1 [0])) as (Hlt & Hmax & _).
  split; [exact Hlt | apply Hmax; right; now left].
Defined.

Lemma Rsum_nonneg (l : list R) : Forall (fun x => 0 <= x) l -> 0 <= Rsum l.
Proof.
  induction 1 as [|x l Hx _ IH]; [unfold Rsum; simpl; lra|].
  rewrite Rsum_cons. lra.
Qed.

Lemma Rsum_nonpos (l : list R) : Forall (fun x => x <= 0) l -> Rsum l <= 0.
Proof.
  induction 1 as [|x l Hx _ IH]; [unfold Rsum; simpl; lra|].
  rewrite Rsum_cons. lra.
Qed.

Lemma INR_length_pos {A : Type} (a : A) (l : list A) :
  0 < INR (length (a :: l)).
Proof. apply lt_0_INR. simpl. lia. Qed.

Lemma tmean_nonneg (l : list R) (v : R) :
  Forall (fun x => 0 <= x) l -> tmean l = Some v -> 0 <= v.
Proof.
  intros Hl Hv. destruct l as [|x l]; [discriminate|].
  injection Hv as <-. pose proof (Rsum_nonneg _ Hl) as Hs.
  pose proof (Rinv_0_lt_compat _ (INR_length_pos x l)) as Hi.
  apply Rmult_le_pos; [exact Hs | left; exact Hi].
Qed.

Lemma tmean_nonpos (l : list R) (v : R) :
  Forall (fun x => x <= 0) l -> tmean l = Some v -> v <= 0.
Proof.
  intros Hl Hv. destruct l as [|x l]; [discriminate|].
  injection Hv as <-. pose proof (Rsum_nonpos _ Hl) as Hs.
  pose proof (Rinv_0_lt_compat _ (INR_length_pos x l)) as Hi.
  apply Ropp_le_cancel. rewrite Ropp_0. unfold Rdiv.
  rewrite Ropp_mult_distr_l.
  rewrite Rsum_cons in Hs. apply Rmult_le_pos; [lra | left; exact Hi].
Qed.

Lemma Forall_map_all {A : Type} (f : A -> R) (P : R -> Prop) (l : list A) :
  (forall a, P (f a)) -> Forall P (map f l).
Proof. intros H. induction l; simpl; constructor; auto. Qed.

(** X5: whenever the energy term of lines 183-185 is a number, it is not
    negative: it can only raise the loss. *)
Theorem energy_term_nonneg (k : nat) (outputs : list Logits) (v : R) :
  energy_term k outputs = Some v -> 0 <= v.
Proof.
  unfold energy_term. rewrite !map_map.
  destruct (tmean (map _ (firstn k outputs))) as [a|] eqn:Ha; [|discriminate].
  destruct (tmean (map _ (skipn k outputs))) as [b|] eqn:Hb; [|discriminate].
  simpl. intros H. injection H as <-.
  apply tmean_nonneg in Ha, Hb;
    try (apply Forall_map_all; intros r; apply pow2_ge_0).
  lra.
Qed.

Lemma energy_term_nonneg_witness : 0 <= 0.1 * (4 / 3 + 0).
Proof.
  exact (energy_term_nonneg 3 Toy.outputs4 _ energy_term_outputs4).
Defined.

Lemma Rsum_exp_pos (l : list R) : 0 <= Rsum (map exp l).
Proof.
  apply Rsum_nonneg. apply Forall_map_all. intros x. left. apply exp_pos.
Qed.

Lemma exp_le_Rsum (l : list R) (x : R) :
  In x l -> exp x <= Rsum (map exp l).
Proof.
  induction l as [|y l IH]; [intros []|]. simpl map. rewrite Rsum_cons.
  intros [->|Hin].
  - pose proof (Rsum_exp_pos l). lra.
  - specialize (IH Hin). pose proof (exp_pos y). lra.
Qed.

(** every logit is below the log-sum-exp of its row *)
Lemma logit_le_logsumexp (r : Logits) (x : R) :
  In x (classes r) -> x <= logsumexp r.
Proof.
  intros Hin. unfold logsumexp. rewrite <- (ln_exp x) at 1.
  pose proof (exp_le_Rsum _ _ Hin) as Hle. pose proof (exp_pos x) as Hpos.
  destruct Hle as [Hlt| ->]; [left; now apply ln_increasing | right; reflexivity].
Qed.

Lemma Rsum_le_bound (l : list R) (b : R) :
  (forall x, In x l -> x <= b) -> Rsum l <= INR (length l) * b.
Proof.
  induction l as [|y l IH]; intros Hb.
  - unfold Rsum. simpl. lra.
  - rewrite Rsum_cons. change (length (y :: l)) with (S (length l)).
    rewrite S_INR.
    assert (Hy : y <= b) by (apply Hb; now left).
    assert (Hl : Rsum l <= INR (length l) * b)
      by (apply IH; intros x Hx; apply Hb; now right).
    lra.
Qed.

Lemma row_mean_le_logsumexp (r : Logits) : row_mean r <= logsumexp r.
Proof.
  unfold row_mean.
  pose proof (Rsum_le_bound (classes r) (logsumexp r)
                (logit_le_logsumexp r)) as Hsum.
  assert (Hpos : 0 < INR (length (classes r)))
    by (unfold classes; apply INR_length_pos).
  apply (Rmult_le_reg_r (INR (length (classes r)))); [exact Hpos|].
  unfold Rdiv. rewrite Rmult_assoc, Rinv_l by lra. lra.
Qed.

(** X6: whenever the outlier-exposure term of line 187 is a number, it is
    not negative, because the mean logit of a row never exceeds its
    log-sum-exp. *)
Theorem oe_term_nonneg (k : nat) (outputs : list Logits) (v : R) :
  oe_term k outputs = Some v -> 0 <= v.
Proof.
  unfold oe_term. rewrite vsub_map.
  destruct (tmean (map _ (skipn k outputs))) as [a|] eqn:Ha; [|discriminate].
  simpl. intros H. injection H as <-.
  apply tmean_nonpos in Ha.
  - lra.
  - apply Forall_map_all. intros r. pose proof (row_mean_le_logsumexp r). lra.
Qed.

Lemma oe_term_nonneg_witness :
  exists v, oe_term 3 Toy.outputs4 = Some v /\ 0 <= v.
Proof.
  eexists. split; [reflexivity|].
  eapply (oe_term_nonneg 3 Toy.outputs4). reflexivity.
Defined.

Lemma tmean_none (l : list R) : tmean l = None <-> l = [].
Proof. destruct l; simpl; split; intros H; try discriminate; reflexivity. Qed.

Lemma sadd_none_r (a : Scalar) : sadd a None = None.
Proof. now destruct a. Qed.

Lemma sadd_none (a b : Scalar) : sadd a b = None <-> a = None \/ b = None.
Proof.
  destruct a, b; simpl; split; intros H; auto; try discriminate.
  destruct H; discriminate.
Qed.

Lemma smul_none (c : R) (a : Scalar) : smul c a = None <-> a = None.
Proof. destruct a; simpl; split; intros H; auto; discriminate. Qed.

Lemma sneg_none (a : Scalar) : sneg a = None <-> a = None.
Proof. destruct a; simpl; split; intros H; auto; discriminate. Qed.

Lemma firstn_nil_iff {A : Type} (k : nat) (l : list A) :
  firstn k l = [] <-> k = 0%nat \/ l = [].
Proof.
  destruct k, l; simpl; split; intros H; auto; try discriminate.
  destruct H; discriminate.
Qed.

Lemma skipn_nil_iff {A : Type} (k : nat) (l : list A) :
  skipn k l = [] <-> (length l <= k)%nat.
Proof.
  revert l. induction k as [|k IH]; intros [|a l]; simpl.
  - split; [lia|reflexivity].
  - split; [discriminate|lia].
  - split; [lia|reflexivity].
  - rewrite IH. lia.
Qed.

Lemma map_nil_iff {A C : Type} (f : A -> C) (l : list A) :
  map f l = [] <-> l = [].
Proof. destruct l; simpl; split; intros H; try discriminate; reflexivity. Qed.

Lemma regularizer_nan_short_aux (k : nat) (outputs : list Logits) :
  (length outputs <= k)%nat ->
  energy_term k outputs = None /\ oe_term k outputs = None.
Proof.
  intros Hlen. split.
  - unfold energy_term. apply smul_none, sadd_none. right.
    apply tmean_none, map_nil_iff, map_nil_iff, skipn_nil_iff, Hlen.
  - unfold oe_term. apply smul_none, sneg_none, tmean_none.
    rewrite vsub_map. apply map_nil_iff, skipn_nil_iff, Hlen.
Qed.

(** X7: the energy term is not a number exactly when the split point is 0
    or the batch has no row from the split point on, and the
    outlier-exposure term exactly when the batch has no row from the split
    point on. *)
Theorem regularizer_nan_iff_short (k : nat) (outputs : list Logits) :
  (energy_term k outputs = None
   <-> k = 0%nat \/ (length outputs <= k)%nat) /\
  (oe_term k outputs = None <-> (length outputs <= k)%nat).
Proof.
  split.
  - unfold energy_term.
    rewrite smul_none, sadd_none, !tmean_none, !map_nil_iff,
      firstn_nil_iff, skipn_nil_iff.
    split; [|tauto]. intros [[H| ->]|H]; auto. right. simpl. lia.
  - unfold oe_term.
    rewrite smul_none, sneg_none, tmean_none, vsub_map, map_nil_iff.
    apply skipn_nil_iff.
Qed.

Lemma regularizer_nan_iff_short_witness :
  energy_term 3 Toy.outputs2 = None /\ oe_term 3 Toy.outputs2 = None.
Proof.
  destruct (regularizer_nan_iff_short 3 Toy.outputs2) as [He Ho].
  split; [apply He; right; simpl; lia | apply Ho; simpl; lia].
Defined.

(** X8: under [--score energy] and [--score OE], a batch with no more
    examples than its first image has channels gets a loss that is not a
    number, and nothing is raised: the accumulated train loss becomes not
    a number. *)
Theorem short_batch_loss_is_nan (B : Backend) (argv : Args) (x0 : Image)
    (rest : list Image) (labels : list nat) (acc : Scalar) (s : State B) :
  score argv = "energy"%string \/ score argv = "OE"%string ->
  (length (x0 :: rest) <= length x0)%nat ->
  fst (train_batch B argv acc (x0 :: rest, labels) s) = Done None.
Proof.
  intros Hscore Hshort.
  rewrite <- (sadd_none_r acc). apply train_batch_fst. cbv zeta.
  set (outputs := forward B (st_training s) (st_params s) (x0 :: rest)).
  assert (Hlen : (length outputs <= length x0)%nat)
    by (subst outputs; now rewrite forward_rows).
  destruct (regularizer_nan_short_aux (length x0) outputs Hlen) as [He Ho].
  destruct Hscore as [-> | ->].
  - now rewrite regularized_loss_energy, He, sadd_none_r.
  - now rewrite regularized_loss_OE, Ho, sadd_none_r.
Qed.

Lemma short_batch_loss_is_nan_witness :
  fst (train_batch Toy.backend (Toy.argv_score "energy") (Some 0)
         ([Toy.image; Toy.image], [0; 1]%nat) Toy.state0)
  = Done None.
Proof.
  apply (short_batch_loss_is_nan Toy.backend (Toy.argv_score "energy")
           Toy.image [Toy.image] [0; 1]%nat (Some 0) Toy.state0).
  - left. reflexivity.
  - simpl. lia.
Defined.

Lemma count_steps_app (l1 l2 : list Event) :
  count_steps (l1 ++ l2) = (count_steps l1 + count_steps l2)%nat.
Proof. unfold count_steps. now rewrite List.filter_app, length_app. Qed.

Lemma count_steps_loop (bs : list Batch) :
  count_steps (concat (map (fun _ : Batch => batch_events) bs)) = length bs.
Proof.
  induction bs as [|b bs IH]; [reflexivity|].
  unfold count_steps in *. simpl. now rewrite IH.
Qed.

Lemma count_steps_epoch (B : Backend) (argv : Args) (env : Env B)
    (epoch : nat) (s : State B) :
  count_steps (epoch_events B argv env epoch s)
  = length (batches (train_loader B argv env epoch)).
Proof.
  unfold epoch_events. rewrite !count_steps_app, count_steps_loop.
  destruct (saves_in argv epoch); unfold count_steps; simpl; lia.
Qed.

Section LoopState.

Context (B : Backend).

(** What an epoch that meets no fault leaves behind. *)
Lemma run_epoch_state (argv : Args) (env : Env B) (epoch : nat)
    (s : State B) :
  env_train env epoch <> [] ->
  (saves_in argv epoch = true -> env_test env <> []) ->
  exists s',
    run_epoch B argv env epoch s = (Done tt, s') /\
    st_training s' = true /\ st_rng s' = st_rng s /\
    st_steps s'
    = (st_steps s + length (batches (train_loader B argv env epoch)))%nat /\
    st_files s'
    = (if saves_in argv epoch
       then <[model_filepath argv :=
                {| ck_device := Cuda (local_rank argv);
                   ck_state := st_params s |}]> (st_files s)
       else st_files s) /\
    st_trace s' = st_trace s ++ epoch_events B argv env epoch s.
Proof.
  intros Htrain Htest.
  destruct (run_epoch_run B argv env epoch s Htrain Htest) as (p & o & Hrun).
  eexists. split; [exact Hrun|]. simpl. auto.
Qed.

Lemma epoch_loop_state (argv : Args) (env : Env B) (n first : nat)
    (s : State B) :
  env_test env <> [] -> (forall e, env_train env e <> []) ->
  exists s',
    epoch_loop B argv env first n s = (Done tt, s') /\
    st_steps s' = (st_steps s + batches_in_epochs B argv env first n)%nat /\
    count_steps (st_trace s')
    = (count_steps (st_trace s) + batches_in_epochs B argv env first n)%nat /\
    (forall p, p <> model_filepath argv ->
               st_files s' !! p = st_files s !! p) /\
    (local_rank argv <> 0%Z -> st_files s' = st_files s) /\
    (local_rank argv = 0%Z ->
     stored_from_cuda0 (st_files s) (model_filepath argv) \/
     ((first mod 10 = 0)%nat /\ (0 < n)%nat) ->
     stored_from_cuda0 (st_files s') (model_filepath argv)).
Proof.
  intros Htest Htrain. revert first s.
  induction n as [|n IH]; intros first s.
  - exists s. simpl. rewrite !Nat.add_0_r. repeat split; auto.
    intros _ [H|[_ H]]; [exact H|lia].
  - destruct (run_epoch_state argv env first s (Htrain first)
                (fun _ => Htest))
      as (s1 & Hrun & _ & _ & Hsteps1 & Hfiles1 & Htrace1).
    destruct (IH (S first) s1)
      as (s' & Hloop & Hsteps & Hcount & Hother & Hrank & Hstored).
    exists s'. simpl epoch_loop. erewrite bind_done by exact Hrun.
    split; [exact Hloop|]. simpl batches_in_epochs.
    split; [lia|].
    split.
    { rewrite Hcount, Htrace1, count_steps_app, count_steps_epoch. lia. }
    split.
    { intros p Hp. rewrite (Hother p Hp), Hfiles1.
      destruct (saves_in argv first); [|reflexivity].
      now rewrite lookup_insert_ne by congruence. }
    split.
    { intros Hnz. rewrite (Hrank Hnz), Hfiles1.
      destruct (saves_in argv first) eqn:Hsave; [|reflexivity].
      apply saves_in_spec in Hsave as [_ H0]. contradiction. }
    intros H0 Hpre. apply (Hstored H0). left. rewrite Hfiles1.
    destruct (saves_in argv first) eqn:Hsave.
    + eexists. rewrite lookup_insert_eq. split; [reflexivity|].
      simpl. now rewrite H0.
    + destruct Hpre as [Hpre|[Hmod _]]; [exact Hpre|].
      assert (saves_in argv first = true)
        by (apply saves_in_spec; auto).
      congruence.
Qed.

End LoopState.

Lemma count_steps_setup (l : list Event) :
  Forall (fun ev => is_setup ev = true) l -> count_steps l = O.
Proof.
  unfold count_steps. induction 1 as [|ev l Hev _ IH]; [reflexivity|].
  simpl. destruct ev; try discriminate; exact IH.
Qed.

(** The final state of a training run that meets no fault. *)
Lemma main_training_state (B : Backend) (argv : Args) (env : Env B) :
  eval argv = false -> (0 < batch_size argv)%Z -> resume_ok B argv env ->
  env_test env <> [] -> (forall e, env_train env e <> []) ->
  let n := Z.to_nat (num_epochs argv) in
  exists s',
    main B argv env = (Done tt, s') /\
    st_steps s' = batches_in_epochs B argv env O n /\
    count_steps (st_trace s') = batches_in_epochs B argv env O n /\
    (forall p, p <> model_filepath argv ->
               st_files s' !! p = env_files env !! p) /\
    (local_rank argv <> 0%Z -> st_files s' = env_files env) /\
    (local_rank argv = 0%Z -> (0 < n)%nat ->
     stored_from_cuda0 (st_files s') (model_filepath argv)).
Proof.
  intros Heval Hbatch Hres Htest Htrain n.
  destruct (resume_checkpoint_ok B argv env Hres)
    as (s1 & Hrun1 & Hsetup & Hfiles1 & Hsteps1).
  unfold main, main_body. erewrite bind_done by exact Hrun1.
  unfold train_or_eval. erewrite bind_done by now apply check_batch_size_ok.
  erewrite bind_done by apply log_run. rewrite Heval.
  match goal with
  | |- context [bind (epoch_loop B argv env O _) _ ?s2] =>
      destruct (epoch_loop_state B argv env n O s2 Htest Htrain)
        as (s' & Hloop & Hsteps & Hcount & Hother & Hrank & Hstored)
  end.
  fold n. erewrite bind_done by exact Hloop. rewrite log_run.
  eexists. split; [reflexivity|]. simpl in *.
  rewrite Hsteps1 in Hsteps. rewrite Hfiles1 in Hother, Hrank.
  split; [exact Hsteps|]. split.
  { rewrite count_steps_app, Hcount, count_steps_app,
      (count_steps_setup _ Hsetup).
    unfold count_steps. simpl. lia. }
  split; [exact Hother|]. split; [exact Hrank|].
  intros H0 Hn. apply (Hstored H0). right. split; [reflexivity|exact Hn].
Qed.

(** X9: a training run that meets no fault takes exactly one optimizer
    step per batch the train loader yields over its epochs, neither more
    nor fewer. *)
Theorem one_step_per_batch (B : Backend) (argv : Args) (env : Env B) :
  eval argv = false -> (0 < batch_size argv)%Z -> resume_ok B argv env ->
  env_test env <> [] -> (forall e, env_train env e <> []) ->
  let final := snd (main B argv env) in
  let total :=
    batches_in_epochs B argv env O (Z.to_nat (num_epochs argv)) in
  st_steps final = total /\ count_steps (st_trace final) = total.
Proof.
  intros Heval Hbatch Hres Htest Htrain.
  destruct (main_training_state B argv env Heval Hbatch Hres Htest Htrain)
    as (s' & Hmain & Hsteps & Hcount & _).
  rewrite Hmain. simpl. auto.
Qed.

Lemma one_step_per_batch_witness :
  st_steps (snd (main Toy.backend Toy.argv Toy.env)) = 4%nat /\
  count_steps (st_trace (snd (main Toy.backend Toy.argv Toy.env))) = 4%nat.
Proof.
  apply (one_step_per_batch Toy.backend Toy.argv Toy.env);
    [reflexivity | reflexivity | intros H; discriminate H | discriminate
    | intros e; discriminate].
Defined.

Lemma epoch_events_save (B : Backend) (argv : Args) (env : Env B)
    (epoch : nat) (s : State B) (p : string) :
  In (EvSave p) (epoch_events B argv env epoch s) ->
  p = model_filepath argv /\ saves_in argv epoch = true.
Proof.
  unfold epoch_events. intros Hin.
  apply in_app_or in Hin as [Hin|Hin];
    [destruct Hin as [Hin|[]]; discriminate|].
  apply in_app_or in Hin as [Hin|Hin].
  { destruct (saves_in argv epoch); [|destruct Hin].
    split; [|reflexivity]. unfold periodic_events in Hin. simpl in Hin.
    repeat (destruct Hin as [Hin|Hin]; try discriminate).
    - now injection Hin.
    - destruct Hin. }
  apply in_app_or in Hin as [Hin|Hin];
    [destruct Hin as [Hin|[]]; discriminate|].
  apply in_app_or in Hin as [Hin|Hin];
    [|destruct Hin as [Hin|[]]; discriminate].
  pose proof (loop_events_batch (batches (train_loader B argv env epoch)))
    as Hall.
  rewrite List.Forall_forall in Hall. specialize (Hall _ Hin). discriminate.
Qed.

Lemma main_training_saves (B : Backend) (argv : Args) (env : Env B) :
  eval argv = false -> (0 < batch_size argv)%Z -> resume_ok B argv env ->
  env_test env <> [] -> (forall e, env_train env e <> []) ->
  let trace := st_trace (snd (main B argv env)) in
  (forall p, In (EvSave p) trace ->
             p = model_filepath argv /\ local_rank argv = 0%Z) /\
  (local_rank argv = 0%Z -> (0 < num_epochs argv)%Z ->
   In (EvSave (model_filepath argv)) trace).
Proof.
  intros Heval Hbatch Hres Htest Htrain.
  destruct (main_training_run B argv env Heval Hbatch Hres Htest Htrain)
    as (setup & segs & s' & Hmain & Htrace & Hsetup & Hlen & Hseg).
  cbv zeta. rewrite Hmain. simpl. rewrite Htrace. split.
  - intros p Hin. apply in_app_or in Hin as [Hin|Hin].
    { rewrite List.Forall_forall in Hsetup. specialize (Hsetup _ Hin).
      discriminate. }
    apply in_app_or in Hin as [Hin|Hin];
      [|destruct Hin as [Hin|[]]; discriminate].
    apply in_concat in Hin as (seg & Hsegin & Hin).
    apply In_nth_error in Hsegin as (e & Hnth).
    destruct (Hseg e seg Hnth) as (si & ->).
    apply epoch_events_save in Hin as (-> & Hsave).
    split; [reflexivity|]. now apply saves_in_spec in Hsave.
  - intros H0 Hn. destruct segs as [|seg segs'].
    { simpl in Hlen. lia. }
    destruct (Hseg O seg eq_refl) as (si & ->).
    apply in_or_app. right. apply in_or_app. left. cbn [concat].
    apply in_or_app. left.
    destruct (epoch_events_saving B argv env O si) as (pre & post & -> & _).
    { apply saves_in_spec. split; [reflexivity|exact H0]. }
    right. apply in_or_app. right. now left.
Qed.

(** X10: in a training run that meets no fault, every call of
    [torch.save] is at the checkpoint path and is made by local rank 0:
    the checkpoint files at the other paths are left as they were, and a
    local rank other than 0 leaves every checkpoint file as it was; local
    rank 0, with at least one epoch, saves, and the checkpoint path holds
    at the end a checkpoint stored from [cuda:0]. *)
Theorem only_rank0_writes_the_checkpoint (B : Backend) (argv : Args)
    (env : Env B) :
  eval argv = false -> (0 < batch_size argv)%Z -> resume_ok B argv env ->
  env_test env <> [] -> (forall e, env_train env e <> []) ->
  let final := snd (main B argv env) in
  (forall p, In (EvSave p) (st_trace final) ->
             p = model_filepath argv /\ local_rank argv = 0%Z) /\
  (forall p, p <> model_filepath argv ->
             st_files final !! p = env_files env !! p) /\
  (local_rank argv <> 0%Z -> st_files final = env_files env) /\
  (local_rank argv = 0%Z -> (0 < num_epochs argv)%Z ->
   In (EvSave (model_filepath argv)) (st_trace final) /\
   stored_from_cuda0 (st_files final) (model_filepath argv)).
Proof.
  intros Heval Hbatch Hres Htest Htrain.
  destruct (main_training_saves B argv env Heval Hbatch Hres Htest Htrain)
    as (Hsaves & Hsaved).
  destruct (main_training_state B argv env Heval Hbatch Hres Htest Htrain)
    as (s' & Hmain & _ & _ & Hother & Hrank & Hstored).
  cbv zeta in *. rewrite Hmain in *. simpl in *.
  split; [exact Hsaves|]. split; [exact Hother|]. split; [exact Hrank|].
  intros H0 Hn. split; [now apply Hsaved|]. apply Hstored; [exact H0|lia].
Qed.

Lemma only_rank0_writes_the_checkpoint_witness :
  (In (EvSave (model_filepath Toy.argv))
     (st_trace (snd (main Toy.backend Toy.argv Toy.env))) /\
   stored_from_cuda0 (st_files (snd (main Toy.backend Toy.argv Toy.env)))
     (model_filepath Toy.argv)) /\
  (forall p,
     ~ In (EvSave p)
         (st_trace (snd (main Toy.backend Toy.argv_resume Toy.env_saved)))) /\
  st_files (snd (main Toy.backend Toy.argv_resume Toy.env_saved))
  = env_files Toy.env_saved.
Proof.
  split.
  - destruct (only_rank0_writes_the_checkpoint Toy.backend Toy.argv Toy.env)
      as (_ & _ & _ & Hstored);
      [reflexivity | reflexivity | intros H; discriminate H | discriminate
      | intros e; discriminate | ].
    apply Hstored; reflexivity.
  - destruct (only_rank0_writes_the_checkpoint Toy.backend Toy.argv_resume
                Toy.env_saved)
      as (Hsaves & _ & Hother & _);
      [reflexivity | reflexivity | | discriminate | intros e; discriminate | ].
    + intros _. exists (@mkCheckpoint Toy.backend (Cuda 0) 5%nat).
      split; reflexivity.
    + split; [|apply Hother; discriminate].
      intros p Hin. destruct (Hsaves p Hin) as [_ H0]. discriminate H0.
Defined.

(** X11: in an epoch in which local rank 0 saves, the checkpoint holds the
    parameters the epoch started with: the save comes before the steps of
    the epoch, of which there is at least one, so the updates of that
    epoch are not in the file. *)
Theorem checkpoint_precedes_training (B : Backend) (argv : Args)
    (env : Env B) (epoch : nat) (s : State B) :
  env_train env epoch <> [] -> env_test env <> [] ->
  (epoch mod 10 = 0)%nat -> local_rank argv = 0%Z ->
  let s' := snd (run_epoch B argv env epoch s) in
  st_files s' !! model_filepath argv
  = Some {| ck_device := Cuda 0; ck_state := st_params s |} /\
  (st_steps s < st_steps s')%nat.
Proof.
  intros Htrain Htest Hmod Hrank.
  destruct (run_epoch_state B argv env epoch s Htrain (fun _ => Htest))
    as (s' & Hrun & _ & _ & Hsteps & Hfiles & _).
  rewrite Hrun. simpl. rewrite Hfiles, Hsteps.
  assert (Hsave : saves_in argv epoch = true) by (apply saves_in_spec; auto).
  rewrite Hsave, lookup_insert_eq, Hrank. split; [reflexivity|].
  assert (Hne : batches (train_loader B argv env epoch) <> [])
    by now apply batches_not_nil.
  destruct (batches (train_loader B argv env epoch));
    [contradiction|simpl; lia].
Qed.

Lemma checkpoint_precedes_training_witness :
  st_files (snd (run_epoch Toy.backend Toy.argv Toy.env 0 Toy.state0))
    !! model_filepath Toy.argv
  = Some (@mkCheckpoint Toy.backend (Cuda 0) (st_params Toy.state0)).
Proof.
  destruct (checkpoint_precedes_training Toy.backend Toy.argv Toy.env 0
              Toy.state0) as [Hfile _];
    [discriminate | discriminate | reflexivity | reflexivity | exact Hfile].
Defined.

Lemma fold_sadd_none (l : list Scalar) : fold_left sadd l None = None.
Proof. induction l as [|a l IH]; simpl; [reflexivity|exact IH]. Qed.

Lemma fold_sadd_in_none (l : list Scalar) (a : Scalar) :
  In None l -> fold_left sadd l a = None.
Proof.
  revert a. induction l as [|x l IH]; intros a; [intros []|].
  intros [->|Hin]; simpl.
  - rewrite sadd_none_r. apply fold_sadd_none.
  - now apply IH.
Qed.

(** X12: a batch loss that is not a number stops nothing: the epoch runs
    to its end, takes a step for every batch, and reports a [Loss/train]
    that is not a number. *)
Theorem nonfinite_loss_reaches_report (B : Backend) (argv : Args)
    (env : Env B) (epoch : nat) (s : State B) :
  env_train env epoch <> [] ->
  (saves_in argv epoch = true -> env_test env <> []) ->
  In None
    (training_losses B (score argv) (st_steps s) (st_params s) (st_opt s)
       (batches (train_loader B argv env epoch))) ->
  let r := run_epoch B argv env epoch s in
  fst r = Done tt /\
  (exists pre,
     st_trace (snd r) = st_trace s ++ pre ++ [EvScalar "Loss/train" None epoch]) /\
  st_steps (snd r)
  = (st_steps s + length (batches (train_loader B argv env epoch)))%nat.
Proof.
  intros Htrain Htest Hnan.
  destruct (run_epoch_state B argv env epoch s Htrain Htest)
    as (s' & Hrun & _ & _ & Hsteps & _ & Htrace).
  rewrite Hrun. simpl. split; [reflexivity|]. split; [|exact Hsteps].
  assert (Hloss : epoch_train_loss B argv env epoch s = None).
  { unfold epoch_train_loss, Aggregate.ssum.
    now rewrite (fold_sadd_in_none _ _ Hnan). }
  rewrite Htrace. unfold epoch_events. rewrite Hloss.
  exists ([EvPrint (MsgTraining (local_rank argv) epoch)]
          ++ (if saves_in argv epoch
              then periodic_events B argv env epoch s else [])
          ++ [EvTrainMode]
          ++ concat (map (fun _ : Batch => batch_events)
                       (batches (train_loader B argv env epoch)))).
  now rewrite <- !app_assoc.
Qed.

Lemma nonfinite_loss_reaches_report_witness :
  fst (run_epoch Toy.backend (Toy.argv_score "energy") Toy.env 0 Toy.state0)
  = Done tt /\
  st_steps (snd (run_epoch Toy.backend (Toy.argv_score "energy") Toy.env 0
                   Toy.state0))
  = 2%nat.
Proof.
  destruct (nonfinite_loss_reaches_report Toy.backend
              (Toy.argv_score "energy") Toy.env 0 Toy.state0)
    as (Hdone & _ & Hsteps);
    [discriminate | discriminate | left; reflexivity | ].
  split; [exact Hdone | exact Hsteps].
Defined.

(** X13: saving and resuming round-trip: after [torch.save] by local rank
    0, a process that resumes from the same path, on whatever local rank
    and with a model that accepts the state, gets exactly the parameters
    that were saved, read onto its own device. *)
Theorem save_then_resume (B : Backend) (saver loader : Args)
    (s s2 : State B) :
  resume loader = true ->
  model_filepath loader = model_filepath saver ->
  st_files s2
  = st_files (snd (torch_save B (model_filepath saver)
                     (Cuda (local_rank saver)) s)) ->
  local_rank saver = 0%Z ->
  loadable B (st_params s2) (st_params s) = true ->
  let r := resume_checkpoint B loader s2 in
  fst r = Done tt /\
  st_params (snd r) = st_params s /\
  st_trace (snd r)
  = st_trace s2
    ++ [EvLoad (model_filepath saver) (Cuda (local_rank loader))].
Proof.
  intros Hres Hpath Hfiles Hrank Hload.
  assert (Hfile : st_files s2 !! model_filepath loader
                  = Some {| ck_device := Cuda 0; ck_state := st_params s |}).
  { rewrite Hfiles, Hpath. simpl. rewrite lookup_insert_eq, Hrank.
    reflexivity. }
  rewrite (resume_checkpoint_loaded B loader s2 _ Hres Hfile Hload).
  simpl. rewrite Hpath. auto.
Qed.

Lemma save_then_resume_witness :
  st_params
    (snd (resume_checkpoint Toy.backend Toy.argv_resume
            (snd (torch_save Toy.backend (model_filepath Toy.argv)
                    (Cuda (local_rank Toy.argv)) Toy.state0))))
  = st_params Toy.state0.
Proof.
  destruct (save_then_resume Toy.backend Toy.argv Toy.argv_resume Toy.state0
              (snd (torch_save Toy.backend (model_filepath Toy.argv)
                      (Cuda (local_rank Toy.argv)) Toy.state0)))
    as (_ & Hparams & _);
    [reflexivity | reflexivity | reflexivity | reflexivity | reflexivity
    | exact Hparams].
Defined.

Section OtherRanks.

Context (B : Backend).

Lemma periodic_eval_other_rank (argv : Args) (env : Env B) (epoch : nat)
    (s : State B) :
  local_rank argv <> 0%Z -> periodic_eval B argv env epoch s = (Done tt, s).
Proof.
  intros Hrank. apply periodic_eval_skip. unfold saves_in.
  apply andb_false_iff. right. now apply Z.eqb_neq.
Qed.

Lemma run_epoch_other_rank (argv : Args) (env : Env B)
    (test : list Sample) (epoch : nat) (s : State B) :
  local_rank argv <> 0%Z ->
  run_epoch B argv (with_test env test) epoch s
  = run_epoch B argv env epoch s.
Proof.
  intros Hrank. unfold run_epoch, bind, print, log.
  rewrite !periodic_eval_other_rank by exact Hrank. reflexivity.
Qed.

Lemma epoch_loop_other_rank (argv : Args) (env : Env B)
    (test : list Sample) (n first : nat) (s : State B) :
  local_rank argv <> 0%Z ->
  epoch_loop B argv (with_test env test) first n s
  = epoch_loop B argv env first n s.
Proof.
  intros Hrank. revert first s.
  induction n as [|n IH]; intros first s; [reflexivity|].
  simpl. unfold bind. rewrite run_epoch_other_rank by exact Hrank.
  destruct (run_epoch B argv env first s) as [[[]|h] s1]; [apply IH|reflexivity].
Qed.

End OtherRanks.

(** X14: a training run on a local rank other than 0 never reads the
    test set: its outcome and final state are the same with any other
    test set, an empty one included. *)
Theorem other_ranks_ignore_test_set (B : Backend) (argv : Args)
    (env : Env B) (test : list Sample) :
  eval argv = false -> local_rank argv <> 0%Z ->
  main B argv (with_test env test) = main B argv env.
Proof.
  intros Heval Hrank. unfold main, main_body, train_or_eval.
  change (initial_state B argv (with_test env test))
    with (initial_state B argv env).
  rewrite Heval. unfold bind.
  destruct (resume_checkpoint B argv (initial_state B argv env))
    as [[[]|h] s1]; [|reflexivity].
  destruct (check_batch_size B argv s1) as [[[]|h] s2]; [|reflexivity].
  destruct (log EvWriterOpen s2) as [[[]|h] s3]; [|reflexivity].
  rewrite epoch_loop_other_rank by exact Hrank. reflexivity.
Qed.

Lemma other_ranks_ignore_test_set_witness :
  main Toy.backend Toy.argv_resume (with_test Toy.env_saved [])
  = main Toy.backend Toy.argv_resume Toy.env_saved.
Proof.
  apply (other_ranks_ignore_test_set Toy.backend Toy.argv_resume
           Toy.env_saved []); [reflexivity | discriminate].
Defined.

Section Writer.

Context (B : Backend).

(** The resume block stops with an exception only, never with [exit()]. *)
Lemma resume_checkpoint_stop (argv : Args) (s s1 : State B) (h : Halt) :
  resume_checkpoint B argv s = (Stop h, s1) -> exists e, h = Raise e.
Proof.
  destruct (resume argv) eqn:Hres.
  - destruct (st_files s !! model_filepath argv) as [ck|] eqn:Hfile.
    + destruct (loadable B (st_params s) (ck_state ck)) eqn:Hload.
      * rewrite (resume_checkpoint_loaded B argv s ck Hres Hfile Hload).
        discriminate.
      * rewrite (resume_checkpoint_refused B argv s ck Hres Hfile Hload).
        intros [= <- _]. eauto.
    + rewrite (resume_checkpoint_missing B argv s Hres Hfile).
      intros [= <- _]. eauto.
  - rewrite (resume_checkpoint_skip B argv s Hres). discriminate.
Qed.

Lemma train_or_eval_eval_writer (argv : Args) (env : Env B) (s : State B) :
  eval argv = true ->
  exists tl,
    st_trace (snd (train_or_eval B argv env s)) = st_trace s ++ tl /\
    Forall (fun ev => is_writer_event ev = false) tl /\
    (fst (train_or_eval B argv env s) = Stop (Exit 0) \/ In EvEvalMode tl ->
     In EvWriterOpen tl).
Proof.
  intros Heval. unfold train_or_eval, check_batch_size.
  destruct (Z.leb_spec (batch_size argv) 0) as [Hle|Hlt].
  - exists []. simpl. rewrite app_nil_r.
    repeat split; [constructor|]. intros [H|[]]. discriminate H.
  - erewrite bind_done by reflexivity.
    erewrite bind_done by apply log_run. rewrite Heval. unfold eval_only.
    destruct (env_test env) as [|x test] eqn:Htest.
    + erewrite bind_stop by (apply evaluate_empty; exact Htest).
      exists [EvWriterOpen; EvEvalMode]. simpl. rewrite <- app_assoc.
      repeat split; [repeat constructor|now left].
    + assert (Hne : dl_samples (test_loader B env) <> [])
        by (simpl; rewrite Htest; discriminate).
      erewrite bind_done by (apply evaluate_run; exact Hne).
      unfold print. erewrite bind_done by apply log_run. unfold exit.
      eexists [EvWriterOpen; EvEvalMode; EvPrint _]. simpl.
      rewrite <- !app_assoc. simpl.
      repeat split; [repeat constructor|now left].
Qed.

End Writer.

(** X15: with [--eval] no scalar is ever added to the summary writer and
    it is never closed; yet it has been opened in every run that gets as
    far as evaluating the model, and in every run that ends by [exit()]. *)
Theorem eval_only_leaves_writer_open (B : Backend) (argv : Args)
    (env : Env B) :
  eval argv = true ->
  let r := main B argv env in
  let trace := st_trace (snd r) in
  Forall (fun ev => is_writer_event ev = false) trace /\
  (fst r = Stop (Exit 0) \/ In EvEvalMode trace -> In EvWriterOpen trace).
Proof.
  intros Heval.
  destruct (initial_state_trace B argv env) as (Ht0 & _).
  destruct (resume_checkpoint_frame B argv (initial_state B argv env))
    as (r1 & s1 & tl1 & Hrun1 & _ & _ & _ & Ht1 & Hsetup1 & _).
  rewrite Ht0 in Ht1. simpl in Ht1.
  assert (Hquiet1 : Forall (fun ev => is_writer_event ev = false) tl1).
  { eapply Forall_impl; [exact Hsetup1|]. now intros [] Hev. }
  assert (Hnoeval : ~ In EvEvalMode tl1).
  { intros Hin. rewrite List.Forall_forall in Hsetup1.
    specialize (Hsetup1 _ Hin). discriminate. }
  destruct r1 as [[]|h1].
  - destruct (train_or_eval_eval_writer B argv env s1 Heval)
      as (tl & Htrace & Hquiet & Hopen).
    assert (Hmain : main B argv env = train_or_eval B argv env s1).
    { unfold main, main_body. now erewrite bind_done by exact Hrun1. }
    cbv zeta. rewrite Hmain, Htrace, Ht1. split.
    + apply Forall_app. split; assumption.
    + intros Hreach. apply in_or_app. right. apply Hopen.
      destruct Hreach as [Hexit|Hin]; [now left|].
      apply in_app_or in Hin as [Hin|Hin]; [contradiction|now right].
  - assert (Hmain : main B argv env = (Stop h1, s1)).
    { unfold main, main_body. now erewrite bind_stop by exact Hrun1. }
    cbv zeta. rewrite Hmain. simpl. rewrite Ht1. split; [exact Hquiet1|].
    destruct (resume_checkpoint_stop B argv _ _ _ Hrun1) as [e ->].
    intros [Hexit|Hin]; [discriminate Hexit|contradiction].
Qed.

Lemma eval_only_leaves_writer_open_witness :
  fst (main Toy.backend Toy.argv_eval Toy.env) = Stop (Exit 0) /\
  In EvWriterOpen (st_trace (snd (main Toy.backend Toy.argv_eval Toy.env))).
Proof.
  assert (Hexit : fst (main Toy.backend Toy.argv_eval Toy.env)
                  = Stop (Exit 0)) by reflexivity.
  split; [exact Hexit|].
  destruct (eval_only_leaves_writer_open Toy.backend Toy.argv_eval Toy.env
              eq_refl) as [_ Hopen].
  apply Hopen. left. exact Hexit.
Defined.

Section EmptyShard.

Context (B : Backend).

Lemma batches_empty (dl : DataLoader) : dl_samples dl = [] -> batches dl = [].
Proof. unfold batches. now intros ->. Qed.

Lemma run_epoch_empty_shard (argv : Args) (env : Env B) (epoch : nat)
    (s : State B) :
  env_train env epoch = [] ->
  (saves_in argv epoch = true -> env_test env <> []) ->
  exists s',
    run_epoch B argv env epoch s = (Stop (Raise ZeroDivisionError), s') /\
    st_steps s' = st_steps s /\
    st_files s'
    = (if saves_in argv epoch
       then <[model_filepath argv :=
                {| ck_device := Cuda (local_rank argv);
                   ck_state := st_params s |}]> (st_files s)
       else st_files s) /\
    exists tl, st_trace s' = st_trace s ++ tl /\
               Forall (fun ev => is_train_scalar ev = false) tl.
Proof.
  intros Htrain Htest.
  assert (Hbs : batches (train_loader B argv env epoch) = [])
    by (apply batches_empty; exact Htrain).
  assert (Hlen : sampler_len (train_loader B argv env epoch) = O)
    by (unfold sampler_len; simpl; now rewrite Htrain).
  unfold run_epoch. rewrite Hbs, Hlen.
  erewrite bind_done by apply log_run.
  destruct (saves_in argv epoch) eqn:Hsave.
  - erewrite bind_done by (apply periodic_eval_run; auto).
    erewrite bind_done by apply model_train_run.
    eexists. split; [reflexivity|]. simpl.
    repeat (split; [reflexivity|]).
    eexists. rewrite <- !app_assoc. split; [reflexivity|].
    apply Forall_app. split; [repeat constructor|].
    apply Forall_app. split; [|repeat constructor].
    apply periodic_events_no_train_scalar.
  - erewrite bind_done by (apply periodic_eval_skip; auto).
    erewrite bind_done by apply model_train_run.
    eexists. split; [reflexivity|]. simpl.
    repeat (split; [reflexivity|]).
    eexists. rewrite <- !app_assoc. split; [reflexivity|].
    repeat constructor.
Qed.

End EmptyShard.

(** X16: a worker whose shard is empty fails with [ZeroDivisionError] at
    the end of its first epoch (line 192), without a step and without a
    train scalar; local rank 0 has by then written the checkpoint, and
    the other ranks have written nothing. *)
Theorem empty_shard_fails_after_save (B : Backend) (argv : Args)
    (env : Env B) :
  eval argv = false -> (0 < batch_size argv)%Z -> resume_ok B argv env ->
  env_test env <> [] -> env_train env O = [] -> (0 < num_epochs argv)%Z ->
  let r := main B argv env in
  fst r = Stop (Raise ZeroDivisionError) /\
  st_steps (snd r) = O /\
  Forall (fun ev => is_train_scalar ev = false) (st_trace (snd r)) /\
  (local_rank argv = 0%Z ->
   stored_from_cuda0 (st_files (snd r)) (model_filepath argv)) /\
  (local_rank argv <> 0%Z -> st_files (snd r) = env_files env).
Proof.
  intros Heval Hbatch Hres Htest Htrain Hn.
  destruct (resume_checkpoint_ok B argv env Hres)
    as (s1 & Hrun1 & Hsetup & Hfiles1 & Hsteps1).
  destruct (Z.to_nat (num_epochs argv)) as [|n] eqn:Hnat; [lia|].
  cbv zeta. unfold main, main_body. erewrite bind_done by exact Hrun1.
  unfold train_or_eval. erewrite bind_done by now apply check_batch_size_ok.
  erewrite bind_done by apply log_run. rewrite Heval, Hnat. simpl epoch_loop.
  match goal with
  | |- context [bind (bind (run_epoch B argv env O) _) _ ?s2] =>
      destruct (run_epoch_empty_shard B argv env O s2 Htrain (fun _ => Htest))
        as (s' & Hrun & Hsteps & Hfiles & tl & Htrace & Hquiet)
  end.
  erewrite bind_stop; [|erewrite bind_stop by exact Hrun; reflexivity].
  simpl in *. split; [reflexivity|]. split; [congruence|]. split.
  { rewrite Htrace. apply Forall_app. split; [|exact Hquiet].
    apply Forall_app. split; [|repeat constructor].
    eapply Forall_impl; [exact Hsetup|]. now intros [] Hev. }
  split.
  - intros H0. rewrite Hfiles.
    assert (Hsave : saves_in argv O = true) by (apply saves_in_spec; auto).
    rewrite Hsave. eexists. rewrite lookup_insert_eq. split; [reflexivity|].
    simpl. now rewrite H0.
  - intros Hnz. rewrite Hfiles, Hfiles1.
    destruct (saves_in argv O) eqn:Hsave; [|reflexivity].
    apply saves_in_spec in Hsave as [_ H0]. contradiction.
Qed.

Lemma empty_shard_fails_after_save_witness :
  fst (main Toy.backend Toy.argv Toy.env_empty_shard)
  = Stop (Raise ZeroDivisionError) /\
  stored_from_cuda0
    (st_files (snd (main Toy.backend Toy.argv Toy.env_empty_shard)))
    (model_filepath Toy.argv).
Proof.
  destruct (empty_shard_fails_after_save Toy.backend Toy.argv
              Toy.env_empty_shard)
    as (Hfail & _ & _ & Hstored & _);
    [reflexivity | reflexivity | intros H; discriminate H | discriminate
    | reflexivity | reflexivity | ].
  split; [exact Hfail | apply Hstored; reflexivity].
Defined.

(** X17: with a batch size that is not positive the run stops by
    [ValueError] when the train loader is built: after the resume block,
    before the writer is opened, without a step and without a file
    written. *)
Theorem nonpositive_batch_size_stops (B : Backend) (argv : Args)
    (env : Env B) :
  (batch_size argv <= 0)%Z -> resume_ok B argv env ->
  let r := main B argv env in
  fst r = Stop (Raise ValueError) /\
  st_steps (snd r) = O /\ st_files (snd r) = env_files env /\
  Forall (fun ev => exists path onto, ev = EvLoad path onto)
    (st_trace (snd r)).
Proof.
  intros Hbatch Hres.
  destruct (initial_state_trace B argv env) as (Ht0 & Hf0 & Hs0 & _).
  assert (Hstop : forall s : State B,
             train_or_eval B argv env s = (Stop (Raise ValueError), s)).
  { intros s. unfold train_or_eval, check_batch_size.
    destruct (Z.leb_spec (batch_size argv) 0); [reflexivity|lia]. }
  cbv zeta. unfold main, main_body.
  destruct (resume argv) eqn:Hresume.
  - destruct (Hres Hresume) as (ck & Hfile & Hload). rewrite <- Hf0 in Hfile.
    erewrite bind_done
      by exact (resume_checkpoint_loaded B argv _ ck Hresume Hfile Hload).
    rewrite Hstop. simpl. rewrite Ht0, Hs0, Hf0.
    repeat (split; [reflexivity|]). repeat constructor. eauto.
  - erewrite bind_done by exact (resume_checkpoint_skip B argv _ Hresume).
    rewrite Hstop. simpl. rewrite Ht0, Hs0, Hf0.
    repeat (split; [reflexivity|]). constructor.
Qed.

Lemma nonpositive_batch_size_stops_witness :
  fst (main Toy.backend Toy.argv_batch0 Toy.env) = Stop (Raise ValueError) /\
  st_trace (snd (main Toy.backend Toy.argv_batch0 Toy.env)) = [].
Proof.
  destruct (nonpositive_batch_size_stops Toy.backend Toy.argv_batch0 Toy.env)
    as (Hfail & _ & _ & _); [discriminate | intros H; discriminate H | ].
  split; [exact Hfail | reflexivity].
Defined.

Open Scope string_scope.

Lemma split_on_fst_no_dot (s : string) :
  has_dot (fst (Py.split_on "." s)) = false.
Proof.
  induction s as [|c s IH]; simpl; [reflexivity|].
  destruct (Py.split_on "." s) as [piece pieces]. simpl in IH.
  destruct (Ascii.eqb c ".") eqn:Hc; simpl; [reflexivity|].
  now rewrite Hc, IH.
Qed.

Lemma checkpoint_filename_suffixed (mode name : string) :
  mode = "energy" \/ mode = "OE" ->
  checkpoint_filename mode name
  = fst (Py.split_on "." name) +:+ Layout.mode_suffix mode +:+ ".pth".
Proof.
  intros [-> | ->];
    [rewrite checkpoint_filename_energy | rewrite checkpoint_filename_OE];
    reflexivity.
Qed.

Lemma append_empty_r (s : string) : s +:+ "" = s.
Proof.
  induction s as [|c s IH]; [reflexivity|].
  now rewrite append_cons, IH.
Qed.

(** a name with a dot is a dot-free stem, the dot and the rest *)
Lemma first_dot_decompose (name : string) :
  has_dot name = true ->
  exists stem rest,
    has_dot stem = false /\ name = stem +:+ String "." rest.
Proof.
  intros Hdot. destruct (split_on_decompose name) as (rest & Hname & Hrest).
  pose proof (split_on_fst_no_dot name) as Hstem.
  destruct Hrest as [->|[r ->]].
  - rewrite append_empty_r in Hname. rewrite <- Hname in Hstem. congruence.
  - eauto.
Qed.

(** X18: under [energy] and [OE] the checkpoint name is what precedes the
    first dot of the configured name, then the suffix of the mode and
    [.pth]: a name without a dot is kept whole, a name with a dot, which
    is a dot-free stem, the dot and a rest, is cut down to that stem.  So
    the checkpoint name is a dot-free stem before the suffix and [.pth],
    and two configured names that differ only after their first dot share
    one checkpoint. *)
Theorem checkpoint_name_cut_at_first_dot (mode : string) :
  mode = "energy" \/ mode = "OE" ->
  let suffix := Layout.mode_suffix mode in
  (forall stem rest,
     has_dot stem = false ->
     checkpoint_filename mode (stem +:+ String "." rest)
     = stem +:+ suffix +:+ ".pth") /\
  (forall name,
     has_dot name = false ->
     checkpoint_filename mode name = name +:+ suffix +:+ ".pth") /\
  (forall name,
     has_dot name = true ->
     exists stem rest,
       has_dot stem = false /\ name = stem +:+ String "." rest) /\
  (forall name, exists stem,
     has_dot stem = false /\
     checkpoint_filename mode name = stem +:+ suffix +:+ ".pth") /\
  (forall stem rest1 rest2,
     has_dot stem = false ->
     checkpoint_filename mode (stem +:+ String "." rest1)
     = checkpoint_filename mode (stem +:+ String "." rest2)).
Proof.
  intros Hmode suffix. subst suffix. repeat split.
  - intros stem rest Hstem.
    rewrite checkpoint_filename_suffixed by exact Hmode.
    now rewrite split_on_fst_stem by exact Hstem.
  - intros name Hname.
    rewrite checkpoint_filename_suffixed by exact Hmode.
    now rewrite split_on_no_dot by exact Hname.
  - exact first_dot_decompose.
  - intros name. exists (fst (Py.split_on "." name)).
    split; [apply split_on_fst_no_dot|].
    now apply checkpoint_filename_suffixed.
  - intros stem rest1 rest2 Hstem.
    rewrite !checkpoint_filename_suffixed by exact Hmode.
    now rewrite !split_on_fst_stem by exact Hstem.
Qed.

Lemma checkpoint_name_cut_at_first_dot_witness :
  checkpoint_filename "energy" "resnet.v1.pth"
  = "resnet_energy.pth"%string /\
  checkpoint_filename "energy" "resnet.v1.pth"
  = checkpoint_filename "energy" "resnet.v2.pth".
Proof.
  destruct (checkpoint_name_cut_at_first_dot "energy" (or_introl eq_refl))
    as (Hcut & _ & _ & _ & Hsame).
  split.
  - exact (Hcut "resnet"%string "v1.pth"%string eq_refl).
  - exact (Hsame "resnet"%string "v1.pth"%string "v2.pth"%string eq_refl).
Defined.

Lemma startswith_sep_checkpoint (mode name : string) :
  Py.startswith_sep (checkpoint_filename mode name) = Py.startswith_sep name.
Proof.
  unfold checkpoint_filename.
  destruct (String.eqb mode "OE");
    [rewrite item0_rsplit; now apply startswith_sep_stem|].
  destruct (String.eqb mode "energy");
    [rewrite item0_rsplit; now apply startswith_sep_stem|reflexivity].
Qed.

(** X19: when the configured file name is absolute, or the model directory
    is the empty string, the checkpoint path is the checkpoint name
    alone: the model directory plays no part. *)
Theorem model_dir_ignored (argv : Args) :
  Py.startswith_sep (model_filename argv) = true \/ model_dir argv = "" ->
  model_filepath argv
  = checkpoint_filename (score argv) (model_filename argv).
Proof.
  unfold model_filepath, Py.os_path_join.
  rewrite startswith_sep_checkpoint. intros [-> | ->]; [reflexivity|].
  now destruct (Py.startswith_sep (model_filename argv)).
Qed.

Lemma model_dir_ignored_witness :
  model_filepath Toy.argv_absolute = "/tmp/resnet_OE.pth"%string.
Proof.
  rewrite (model_dir_ignored Toy.argv_absolute); [reflexivity|].
  left. reflexivity.
Defined.

Open Scope list_scope.
